(** * gfs-update: download, extract and publish GFS layers

    A shallow embedding of [server/gfs-update.js].  The script keeps its state
    in the local file system, in the file-scope [servers] array and in the
    remote object store; here that state is an explicit [World] threaded
    through every operation.  A promise is represented by the way it settles
    ([Fulfilled] or [Rejected]); [then_] is [promise.then(f)] with no
    rejection handler, so a rejection passes through untouched. *)

From Stdlib Require Import ZArith Lia Ascii String.
From stdpp Require Import gmap strings list pretty.

(** ** JavaScript dates

    The time value of a [Date] is a number of milliseconds, or NaN for an
    "Invalid Date".  Every relational operator answers [false] as soon as one
    side is NaN. *)

Definition Date : Type := option Z.

Definition date_lt (a b : Date) : bool :=
  match a, b with
  | Some x, Some y => (x <? y)%Z
  | _, _ => false
  end.

Definition date_gt (a b : Date) : bool := date_lt b a.

Definition date_ge (a b : Date) : bool :=
  match a, b with
  | Some x, Some y => (y <=? x)%Z
  | _, _ => false
  end.

(** A string is falsy when it is [undefined] or empty. *)
Definition truthy (s : option string) : bool :=
  match s with
  | Some (String _ _) => true
  | _ => false
  end.

(** ** Data model *)

Record Cycle := { cycle_date : Date }.

Record Product := {
  ptype : string;
  cycle : Cycle;
  forecastHour : Z
}.

Record Recipe := {
  name : string;
  filter : string;
  description : string
}.

Record Layer := {
  recipe : Recipe;
  product : Product;
  isCurrent : bool
}.

(** One record of a layer file: the decoder's [header] block and the [meta]
    block that [processLayer] attaches. *)
Record Header := {
  refTime : string;
  forecastTime : Z
}.

Record GribRecord := {
  header : Header;
  meta : option string
}.

Inductive File :=
  | Grib (body : string)
  | Json (data : list GribRecord).

(** What [tool.download] resolves with, and what it streamed to the
    temporary file. *)
Record DownloadResult := {
  statusCode : Z;
  received : Z;
  duration : Z;
  streamed : string
}.

Inductive Error :=
  | TransportError (msg : string)
  | ReturnCode (code : Z)
  | TypeError
  | RangeError
  | ENOENT (path : string)
  | StoreError (msg : string).

Inductive promise (A : Type) :=
  | Fulfilled (a : A)
  | Rejected (e : Error).
Arguments Fulfilled {A} a.
Arguments Rejected {A} e.

(** ** The constants of the script *)

Definition PRODUCT_TYPES : list string := ["1.0"].

Definition GRIB2JSON_FLAGS : string := "-c -d -n".

Definition wi10 : Recipe :=
  {| name := "wind-isobaric-10hPa";
     filter := "--fc 2 --fp wind --fs 100 --fv 1000";
     description := "Wind Velocity @ 10 hPa" |}.
Definition wi70 : Recipe :=
  {| name := "wind-isobaric-70hPa";
     filter := "--fc 2 --fp wind --fs 100 --fv 7000";
     description := "Wind Velocity @ 70 hPa" |}.
Definition wi250 : Recipe :=
  {| name := "wind-isobaric-250hPa";
     filter := "--fc 2 --fp wind --fs 100 --fv 25000";
     description := "Wind Velocity @ 250 hPa" |}.
Definition wi500 : Recipe :=
  {| name := "wind-isobaric-500hPa";
     filter := "--fc 2 --fp wind --fs 100 --fv 50000";
     description := "Wind Velocity @ 500 hPa" |}.
Definition wi700 : Recipe :=
  {| name := "wind-isobaric-700hPa";
     filter := "--fc 2 --fp wind --fs 100 --fv 70000";
     description := "Wind Velocity @ 700 hPa" |}.
Definition wi850 : Recipe :=
  {| name := "wind-isobaric-850hPa";
     filter := "--fc 2 --fp wind --fs 100 --fv 85000";
     description := "Wind Velocity @ 850 hPa" |}.
Definition wi1000 : Recipe :=
  {| name := "wind-isobaric-1000hPa";
     filter := "--fc 2 --fp wind --fs 100 --fv 100000";
     description := "Wind Velocity @ 1000 hPa" |}.

(** [LAYER_RECIPES], in the order [Object.keys] enumerates it. *)
Definition LAYER_RECIPES : list (string * Recipe) :=
  [("wi10", wi10); ("wi70", wi70); ("wi250", wi250); ("wi500", wi500);
   ("wi700", wi700); ("wi850", wi850); ("wi1000", wi1000)].

(** ** The environment of a run

    Everything the script takes from its required modules [./gfs], [./aws]
    and [./tool], from [process.argv] and from the outside world.  The
    outside world answers as a function of the request, so two requests for
    the same resource within a run get the same answer. *)

Record Env (StoreResult : Type) := {
  (* ./gfs *)
  period : Z;
  snap : Z -> Z;
  product_previous : Product -> Product;
  product_rel : Product -> string;
  layer_rel : Layer -> string;
  cacheControlFor : Layer -> string;
  NOMADS : string;
  NCEP : string;
  (* ./aws *)
  S3_LAYER_HOME : string;
  S3_BUCKET : string;
  unchanged : StoreResult;
  (* Date *)
  Date_parse : string -> Date;
  toISOString : Z -> string;
  (* process.argv *)
  GRIB_HOME : string;
  LAYER_HOME : string;
  forecasts : list Z;
  (* the outside world *)
  http : string -> promise DownloadResult;
  decoder : string -> option File -> Z * list GribRecord;
  s3_put : string -> promise StoreResult
}.
Arguments period {StoreResult} e.
Arguments snap {StoreResult} e.
Arguments product_previous {StoreResult} e.
Arguments product_rel {StoreResult} e.
Arguments layer_rel {StoreResult} e.
Arguments cacheControlFor {StoreResult} e.
Arguments NOMADS {StoreResult} e.
Arguments NCEP {StoreResult} e.
Arguments S3_LAYER_HOME {StoreResult} e.
Arguments S3_BUCKET {StoreResult} e.
Arguments unchanged {StoreResult} e.
Arguments Date_parse {StoreResult} e.
Arguments toISOString {StoreResult} e.
Arguments GRIB_HOME {StoreResult} e.
Arguments LAYER_HOME {StoreResult} e.
Arguments forecasts {StoreResult} e.
Arguments http {StoreResult} e.
Arguments decoder {StoreResult} e.
Arguments s3_put {StoreResult} e.

(** ** The world *)

Inductive LogEntry :=
  | NoServersAvailable
  | AlreadyExists (localPath : string)
  | Get (remotePath : string)
  | DownloadFailed (result : DownloadResult)
  | DownloadComplete (remotePath : string)
  | ProductFileNotFound (productPath : string)
  | NewerLayerExists (layerPath : string)
  | ReplacingObsoleteLayer (layerPath : string)
  | Grib2jsonFailed (returnCode : Z) (productPath : string)
  | Processing (layerPath : string)
  | NoLayerData (layerPath : string)
  | SuccessfullyBuilt (layerPath : string)
  | LayerFileNotFound (layerPath : string)
  | Pushed (key : string)
  | CycleStarted (c : Cycle)
  | BatchComplete
  | NoRecentLayers.

(** The interactions with the network and with the decoder, newest first. *)
Inductive Effect :=
  | HttpGet (remotePath : string)
  | Grib2json (filter productPath : string)
  | S3Head (key : string)
  | S3Put (key : string).

Record RemoteObject := {
  obj_body : File;
  obj_metadata : gmap string string;
  obj_cacheControl : string
}.

(** What [pushLayer] can settle with. *)
Inductive JsValue (R : Type) :=
  | JsNull
  | JsTrue
  | JsObject (r : R).
Arguments JsNull {R}.
Arguments JsTrue {R}.
Arguments JsObject {R} r.

(** What a metadata fetch answers: [Metadata] is [undefined] when there is
    nothing stored under the key. *)
Record HeadResult := { Metadata : option (gmap string string) }.

Record World := {
  files : gmap string File;
  servers : list string;
  store : gmap (string * string) RemoteObject;
  log : list LogEntry;
  trace : list Effect
}.

Definition set_files (f : gmap string File -> gmap string File) (w : World) : World :=
  {| files := f (files w); servers := servers w; store := store w;
     log := log w; trace := trace w |}.

Definition set_servers (f : list string -> list string) (w : World) : World :=
  {| files := files w; servers := f (servers w); store := store w;
     log := log w; trace := trace w |}.

Definition set_store
    (f : gmap (string * string) RemoteObject -> gmap (string * string) RemoteObject)
    (w : World) : World :=
  {| files := files w; servers := servers w; store := f (store w);
     log := log w; trace := trace w |}.

Definition add_log (e : LogEntry) (w : World) : World :=
  {| files := files w; servers := servers w; store := store w;
     log := e :: log w; trace := trace w |}.

Definition add_effect (e : Effect) (w : World) : World :=
  {| files := files w; servers := servers w; store := store w;
     log := log w; trace := e :: trace w |}.

(** How many requests went out to the upstream servers. *)
Definition httpGets (w : World) : nat :=
  length (List.filter (fun e => if e is HttpGet _ then true else false) (trace w)).

(** ** Promises over the world *)

Definition M (A : Type) : Type := World -> promise A * World.

Definition resolve {A} (a : A) : M A := fun w => (Fulfilled a, w).

Definition reject {A} (e : Error) : M A := fun w => (Rejected e, w).

Definition then_ {A B} (m : M A) (f : A -> M B) : M B := fun w =>
  match m w with
  | (Fulfilled a, w') => f a w'
  | (Rejected e, w') => (Rejected e, w')
  end.

Notation "'let*' x ':=' m 'in' k" := (then_ m (fun x => k))
  (at level 10, x name, m at level 100, k at level 200).
Notation "m '>>' k" := (then_ m (fun _ => k))
  (at level 100, k at level 200, right associativity).

(** [when.map(xs, f)]: [f] is started on every element; the result is the
    array of the values, or the first rejection.  The elements are run here
    one after the other, in array order. *)
Fixpoint when_map {A B} (f : A -> M B) (xs : list A) : M (list B) :=
  match xs with
  | [] => resolve []
  | x :: rest => fun w =>
      match f x w with
      | (Fulfilled b, w1) =>
          match when_map f rest w1 with
          | (Fulfilled bs, w2) => (Fulfilled (b :: bs), w2)
          | (Rejected e, w2) => (Rejected e, w2)
          end
      | (Rejected e, w1) => (Rejected e, snd (when_map f rest w1))
      end
  end.

(** [when.all(tasks)] over tasks that were already started in array order. *)
Definition when_all {A} (tasks : list (M A)) : M (list A) :=
  when_map (fun t => t) tasks.

(** ** The file system

    A path is resolved against the working directory, so leading [./]
    segments do not change the file it names. *)

Fixpoint normalize (p : string) : string :=
  match p with
  | String "."%char (String "/"%char rest) => normalize rest
  | _ => p
  end.

Definition existsSync (p : string) : M bool := fun w =>
  (Fulfilled (bool_decide (is_Some (files w !! normalize p))), w).

Definition renameSync (content : File) (p : string) : M unit := fun w =>
  (Fulfilled tt, set_files (insert (normalize p) content) w).

Definition writeFileSync (p : string) (content : File) : M unit := fun w =>
  (Fulfilled tt, set_files (insert (normalize p) content) w).

Definition unlinkSync (p : string) : M unit := fun w =>
  (Fulfilled tt, set_files (delete (normalize p)) w).

(** [mkdirp.sync]: directories are not part of the world, a file exists as
    soon as it is written. *)
Definition mkdirp_sync (dir : string) : M unit := resolve tt.

(** [tool.readJSONSync]: throws when the file is missing or is not JSON. *)
Definition readJSONSync (p : string) : M (list GribRecord) := fun w =>
  match files w !! normalize p with
  | Some (Json data) => (Fulfilled data, w)
  | Some (Grib _) => (Rejected TypeError, w)
  | None => (Rejected (ENOENT p), w)
  end.

(** [xs[0]], which throws a [TypeError] once a property of [undefined] is
    read. *)
Definition first_record (data : list GribRecord) : M GribRecord :=
  match data with
  | r :: _ => resolve r
  | [] => reject TypeError
  end.

Definition log_info (e : LogEntry) : M unit := fun w => (Fulfilled tt, add_log e w).

Definition log_error (e : LogEntry) : M unit := fun w => (Fulfilled tt, add_log e w).

(** [delay(ms)]: resolves later; the clock is not part of the world. *)
Definition delay (ms : Z) : M unit := resolve tt.

(** [array.pop()] *)
Definition array_pop {A} (l : list A) : option (A * list A) :=
  match last l with
  | Some x => Some (x, removelast l)
  | None => None
  end.

Section GfsUpdate.

Context {StoreResult : Type} (E : Env StoreResult).

(** ** ./gfs *)

(** Modelled from the spec: [gfs.cycle] (module ./gfs is not among the
    sources): a Cycle is a timestamp on a grid of fixed period; the date it
    is built from is brought onto the grid by [snap]. *)
Definition gfs_cycle (d : Date) : Cycle :=
  {| cycle_date := snap E <$> d |}.

(** Modelled from the spec: [cycle.next()] and [cycle.previous()] of ./gfs
    move to the adjacent grid point. *)
Definition cycle_next (c : Cycle) : Cycle :=
  {| cycle_date := (fun t => t + period E)%Z <$> cycle_date c |}.

Definition cycle_previous (c : Cycle) : Cycle :=
  {| cycle_date := (fun t => t - period E)%Z <$> cycle_date c |}.

(** Modelled from the spec: [gfs.product] of ./gfs: a Product is identified
    by its type, Cycle and forecast hour. *)
Definition gfs_product (type : string) (c : Cycle) (fh : Z) : Product :=
  {| ptype := type; cycle := c; forecastHour := fh |}.

(** Modelled from the spec: [product.date()] of ./gfs, the Cycle time plus
    the forecast offset, the offset being in hours. *)
Definition product_date (p : Product) : Date :=
  (fun t => t + forecastHour p * 3600000)%Z <$> cycle_date (cycle p).

(** Modelled from the spec: [product.path(root)] of ./gfs, a relative path
    that depends on the identity only, under the given root. *)
Definition product_path (root : string) (p : Product) : string :=
  root +:+ product_rel E p.

(** Modelled from the spec: [gfs.layer] of ./gfs; the flag is falsy when the
    third argument is left out. *)
Definition gfs_layer (r : Recipe) (p : Product) (current : bool) : Layer :=
  {| recipe := r; product := p; isCurrent := current |}.

(** Modelled from the spec: [layer.previous()] of ./gfs steps the underlying
    Product backward. *)
Definition layer_previous (l : Layer) : Layer :=
  {| recipe := recipe l; product := product_previous E (product l);
     isCurrent := isCurrent l |}.

(** Modelled from the spec: [layer.path(root)] of ./gfs. *)
Definition layer_path (root : string) (l : Layer) : string :=
  root +:+ layer_rel E l.

(** [date.toISOString()], which throws a [RangeError] on an invalid date. *)
Definition date_toISOString (d : Date) : M string :=
  match d with
  | Some t => resolve (toISOString E t)
  | None => reject RangeError
  end.

(** ** The server pool *)

Definition nextServer : M string := fun w =>
  match array_pop (servers w) with
  | None => (Fulfilled (NOMADS E), add_log NoServersAvailable w)
  | Some (server, rest) => (Fulfilled server, set_servers (fun _ => rest) w)
  end.

Definition releaseServer (server : string) : M unit := fun w =>
  (Fulfilled tt, set_servers (fun l => l ++ [server]) w).

(** ** Fetch *)

(** [tool.download(remotePath, tempStream)] of ./tool: one request to the
    network; what it settles with is the world's answer. *)
Definition tool_download (remotePath : string) : M DownloadResult := fun w =>
  (http E remotePath, add_effect (HttpGet remotePath) w).

(** The progress callback of the [then] only logs the megabytes received
    so far and is left out. *)
Definition download (product : Product) : M Product :=
  let localPath := product_path (GRIB_HOME E) product in
  let* found := existsSync localPath in
  if found then
    log_info (AlreadyExists localPath) >>
    resolve product
  else
    let* server := nextServer in
    let remotePath := product_path ("http://" +:+ server) product in
    log_info (Get remotePath) >>
    delay (10 * 1000) >>
    let* result := tool_download remotePath in
    releaseServer server >>
    if (300 <=? statusCode result)%Z then
      log_info (DownloadFailed result) >>
      resolve product
    else
      mkdirp_sync localPath >>
      renameSync (Grib (streamed result)) localPath >>
      log_info (DownloadComplete remotePath) >>
      resolve product.

(** ** Extract *)

(** [record.meta = {date: ...}] *)
Definition attachMeta (date : string) (record : GribRecord) : GribRecord :=
  {| header := header record; meta := Some date |}.

(** [processLayer(layer, path)]: the file at [path] is the decoder's output,
    handed over here as its parsed contents. *)
Definition processLayer (layer : Layer) (data : list GribRecord)
    : M (option (list GribRecord)) :=
  match data with
  | [] => resolve None
  | _ =>
      let* date := date_toISOString (product_date (product layer)) in
      resolve (Some (map (attachMeta date) data))
  end.

(** [tool.grib2json(args, ...)] of ./tool: runs the external decoder and
    resolves with its return code; the output it wrote to the temporary file
    comes along. *)
Definition tool_grib2json (filter productPath : string)
    : M (Z * list GribRecord) := fun w =>
  (Fulfilled (decoder E filter (files w !! normalize productPath)),
   add_effect (Grib2json filter productPath) w).

(** The part of [extractLayer] from [createTemp] on. *)
Definition runDecoder (layer : Layer) : M (option Layer) :=
  let productPath := product_path (GRIB_HOME E) (product layer) in
  let layerPath := layer_path (LAYER_HOME E) layer in
  let* ran := tool_grib2json (filter (recipe layer)) productPath in
  let returnCode := fst ran in
  if negb (returnCode =? 0)%Z then
    log_info (Grib2jsonFailed returnCode productPath) >>
    reject (ReturnCode returnCode)
  else
    log_info (Processing layerPath) >>
    let* data := processLayer layer (snd ran) in
    match data with
    | None =>
        log_info (NoLayerData layerPath) >>
        resolve None
    | Some data =>
        mkdirp_sync layerPath >>
        writeFileSync layerPath (Json data) >>
        log_info (SuccessfullyBuilt layerPath) >>
        resolve (Some layer)
    end.

Definition extractLayer (layer : Layer) : M (option Layer) :=
  let productPath := product_path (GRIB_HOME E) (product layer) in
  let layerPath := layer_path (LAYER_HOME E) layer in
  let* productFound := existsSync productPath in
  if negb productFound then
    log_info (ProductFileNotFound productPath) >>
    resolve None
  else
    let* layerFound := existsSync layerPath in
    if layerFound then
      let* data := readJSONSync ("./" +:+ layerPath) in
      let* record := first_record data in
      let refTime := refTime (header record) in
      if date_ge (Date_parse E refTime) (cycle_date (cycle (product layer))) then
        log_info (NewerLayerExists layerPath) >>
        resolve (Some layer)
      else
        log_info (ReplacingObsoleteLayer layerPath) >>
        runDecoder layer
    else
      runDecoder layer.

(** [Object.keys(LAYER_RECIPES)] and [LAYER_RECIPES[recipeId]]. *)
Definition recipeIds : list string := map fst LAYER_RECIPES.

Definition recipeOf (recipeId : string) : option Recipe :=
  snd <$> List.find (fun kv => String.eqb (fst kv) recipeId) LAYER_RECIPES.

Definition extractLayers (product : Product) : M (list (option Layer)) :=
  let layers := omap (fun recipeId =>
    (fun r => gfs_layer r product false) <$> recipeOf recipeId) recipeIds in
  when_map extractLayer layers.

(** ** Publish *)

(** Modelled from the spec: the metadata fetch of ./aws (a conditional
    existence and metadata fetch by key). *)
Definition headObject (bucket key : string) : M HeadResult := fun w =>
  (Fulfilled {| Metadata := obj_metadata <$> store w !! (bucket, key) |},
   add_effect (S3Head key) w).

(** Modelled from the spec: the upload of ./aws (body, key, custom metadata
    map and cache-control header); the store answers with its result or
    fails. *)
Definition putObject (path bucket key : string) (metadata : gmap string string)
    (cacheControl : string) : M StoreResult := fun w =>
  match files w !! normalize path with
  | None => (Rejected (ENOENT path), w)
  | Some body =>
      match s3_put E key with
      | Fulfilled r =>
          (Fulfilled r,
           set_store (insert (bucket, key)
             {| obj_body := body; obj_metadata := metadata;
                obj_cacheControl := cacheControl |})
             (add_effect (S3Put key) w))
      | Rejected e => (Rejected e, add_effect (S3Put key) w)
      end
  end.

(** Modelled from the spec: [aws.uploadFile] of ./aws, a conditional upload:
    fetch the existing remote metadata (if any) and upload only if the
    predicate accepts it. *)
Definition uploadFile (path bucket key : string) (metadata : gmap string string)
    (predicate : HeadResult -> bool) (cacheControl : string) : M StoreResult :=
  let* existing := headObject bucket key in
  if predicate existing then putObject path bucket key metadata cacheControl
  else resolve (unchanged E).

Definition isNewerThan (layer : Layer) (existing : HeadResult) : bool :=
  let refTime := default ∅ (Metadata existing) !! "reference-time" in
  negb (truthy refTime)
  || date_lt (refTime ≫= Date_parse E) (cycle_date (cycle (product layer)))
  || isCurrent layer.

Definition pushLayer (layer : option Layer) : M (JsValue StoreResult) :=
  match layer with
  | None => resolve JsNull
  | Some layer =>
      let layerPath := layer_path (LAYER_HOME E) layer in
      let* found := existsSync layerPath in
      if negb found then
        log_info (LayerFileNotFound layerPath) >>
        resolve JsNull
      else
        let key := layer_path (S3_LAYER_HOME E) layer in
        let* date := date_toISOString (cycle_date (cycle (product layer))) in
        let metadata : gmap string string := {[ "reference-time" := date ]} in
        let cacheControl := cacheControlFor E layer in
        let* result := uploadFile layerPath (S3_BUCKET E) key metadata
                         (isNewerThan layer) cacheControl in
        log_info (Pushed key) >>
        resolve JsTrue
  end.

(** The reference time stored with the remote object under [key], if any. *)
Definition storedReferenceTime (w : World) (key : string) : option string :=
  store w !! (S3_BUCKET E, key) ≫= fun o => obj_metadata o !! "reference-time".

Definition pushLayers (layers : list (option Layer))
    : M (list (JsValue StoreResult)) :=
  when_map pushLayer layers.

(** ** The cycle scheduler *)

(** The [products] array that [processCycle] fills. *)
Definition cycleProducts (c : Cycle) : list Product :=
  flat_map (fun type =>
    map (fun forecastHour => gfs_product type c forecastHour) (forecasts E))
    PRODUCT_TYPES.

Definition processCycle (c : Cycle) : M unit :=
  log_info (CycleStarted c) >>
  let products := cycleProducts c in
  let* downloads := when_map download products in
  let* extracted := when_map extractLayers downloads in
  let* pushed := when_map pushLayers extracted in
  log_info BatchComplete.

(** The [while] loop of [processCycles]; [task] is what is pushed for each
    cycle.  [None] when the fuel runs out before the loop ends. *)
Fixpoint processCycles_loop {T} (task : Cycle -> T) (fuel : nat)
    (stop c : Cycle) : option (list T) :=
  match fuel with
  | O => None
  | S fuel' =>
      if date_ge (cycle_date c) (cycle_date stop) then
        cons (task c) <$> processCycles_loop task fuel' stop (cycle_previous c)
      else Some []
  end.

(** The cycle [n] steps before [c]. *)
Definition cycleBack (n : nat) (c : Cycle) : Cycle :=
  Nat.iter n cycle_previous c.

Record Bounds := { from : Date; until : Date }.

Definition processCycles (fuel : nat) (bounds : Bounds)
    : option (M (list unit)) :=
  let stop := gfs_cycle (until bounds) in
  let c := gfs_cycle (from bounds) in
  when_all <$> processCycles_loop processCycle fuel stop c.

(** ** The current resolver *)

(** The first [while] loop of [copyCurrent]. *)
Fixpoint walkToNow (fuel : nat) (now : Z) (mostRecentLayer : Layer)
    : option Layer :=
  match fuel with
  | O => None
  | S fuel' =>
      if date_gt (product_date (product mostRecentLayer)) (Some now) then
        walkToNow fuel' now (layer_previous mostRecentLayer)
      else Some mostRecentLayer
  end.

(** The second [while] loop: [Some None] when the search gives up. *)
Fixpoint walkToDisk (fuel : nat) (threeDaysAgo : Z) (mostRecentLayer : Layer)
    (w : World) : option (option Layer) :=
  match fuel with
  | O => None
  | S fuel' =>
      if fst (existsSync (layer_path (LAYER_HOME E) mostRecentLayer) w) is Fulfilled true
      then Some (Some mostRecentLayer)
      else
        let mostRecentLayer := layer_previous mostRecentLayer in
        if date_lt (product_date (product mostRecentLayer)) (Some threeDaysAgo)
        then Some None
        else walkToDisk fuel' threeDaysAgo mostRecentLayer w
  end.

(** [createReadStream(src).pipe(createWriteStream(dest))]; a source that
    cannot be opened ends the run. *)
Definition pipeFile (src dest : string) : M unit := fun w =>
  match files w !! normalize src with
  | Some content => (Fulfilled tt, set_files (insert (normalize dest) content) w)
  | None => (Rejected (ENOENT src), w)
  end.

(** The callback mapped over the recipes in [copyCurrent]. *)
Definition linkCurrent (product : Product) (r : Recipe) : M (option Layer) :=
  let src := gfs_layer r product false in
  let dest := gfs_layer r product true in
  mkdirp_sync (layer_path (LAYER_HOME E) dest) >>
  let destPath := layer_path (LAYER_HOME E) dest in
  let* found := existsSync destPath in
  (if found then unlinkSync destPath else resolve tt) >>
  pipeFile (layer_path (LAYER_HOME E) src) destPath >>
  resolve (Some dest).

(** The part of [copyCurrent] after the search found [mostRecentLayer]. *)
Definition publishCurrent (mostRecentLayer : Layer)
    : M (list (JsValue StoreResult)) :=
  let* data := readJSONSync (layer_path ("./" +:+ LAYER_HOME E) mostRecentLayer) in
  let* record := first_record data in
  let header := header record in
  let product := gfs_product (default "" (PRODUCT_TYPES !! 0%nat))
                   (gfs_cycle (Date_parse E (refTime header)))
                   (forecastTime header) in
  let* layers := when_map (linkCurrent product) (omap recipeOf recipeIds) in
  pushLayers layers.

(** Between two worlds, the store was only asked about or written under the
    keys of the given Layers, and what was written carries the reference
    time of the Layer's cycle. *)
Definition onlyPublishes (layers : list Layer) (w w' : World) : Prop :=
  (exists new,
     trace w' = new ++ trace w
     /\ forall e, In e new ->
          exists l, In l layers
            /\ (e = S3Head (layer_path (S3_LAYER_HOME E) l)
                \/ e = S3Put (layer_path (S3_LAYER_HOME E) l)))
  /\ (forall k o,
        store w' !! k = Some o ->
        store w !! k = Some o
        \/ exists l t, In l layers
             /\ k = (S3_BUCKET E, layer_path (S3_LAYER_HOME E) l)
             /\ cycle_date (cycle (product l)) = Some t
             /\ obj_metadata o = {[ "reference-time" := toISOString E t ]}).

(** The search of [copyCurrent]: both loops, from the cycle after [now]. *)
Definition findMostRecentLayer (fuel : nat) (now : Z) (w : World)
    : option (option Layer) :=
  let threeDaysAgo := (now - 3 * 24 * 60 * 60 * 1000)%Z in
  let start := gfs_layer wi1000
    (gfs_product (default "" (PRODUCT_TYPES !! 0%nat))
       (cycle_next (gfs_cycle (Some now))) 0) false in
  mostRecentLayer ← walkToNow fuel now start;
  walkToDisk fuel threeDaysAgo mostRecentLayer w.

(** [copyCurrent] at wall-clock time [now]; it returns [undefined] ([None]
    inside the promise) when nothing recent exists. *)
Definition copyCurrent (fuel : nat) (now : Z) (w : World)
    : option (promise (option (list (JsValue StoreResult))) * World) :=
  found ← findMostRecentLayer fuel now w;
  match found with
  | None => Some ((log_info NoRecentLayers >> resolve None) w)
  | Some mostRecentLayer =>
      Some ((let* pushed := publishCurrent mostRecentLayer in
             resolve (Some pushed)) w)
  end.

End GfsUpdate.

(** ** when/guard: the stage throttles *)

Module Guard.

(** The variables closed over by [guard.n(allowed)]: the counter and the
    queue of deferreds that wait for a slot. *)
Record state (Op : Type) := {
  allowed : Z;
  count : Z;
  waiting : list Op
}.
Arguments allowed {Op} s.
Arguments count {Op} s.
Arguments waiting {Op} s.

Definition n {Op} (allowed : Z) : state Op :=
  {| allowed := allowed; count := 0; waiting := [] |}.

(** [enter()]: the caller's deferred is resolved at once while
    [count < allowed] and queued otherwise; the second component lists the
    callers let in. *)
Definition enter {Op} (op : Op) (s : state Op) : state Op * list Op :=
  if (count s <? allowed s)%Z then
    ({| allowed := allowed s; count := count s + 1; waiting := waiting s |},
     [op])
  else
    ({| allowed := allowed s; count := count s + 1;
        waiting := waiting s ++ [op] |},
     []).

(** [exit()]: one slot is given back and handed to the head of the queue,
    if there is one. *)
Definition exit {Op} (s : state Op) : state Op * list Op :=
  let c := Z.max (count s - 1) 0 in
  match waiting s with
  | [] => ({| allowed := allowed s; count := c; waiting := [] |}, [])
  | d :: rest => ({| allowed := allowed s; count := c; waiting := rest |}, [d])
  end.

(** A function wrapped by [guard(condition, f)]: the condition's state and
    the calls of [f] that were let in and have not settled yet. *)
Record guarded (Op : Type) := {
  condition : state Op;
  inFlight : list Op
}.
Arguments condition {Op} g.
Arguments inFlight {Op} g.

Definition guard {Op} (condition : state Op) : guarded Op :=
  {| condition := condition; inFlight := [] |}.

(** Calling the wrapped function enters the condition first. *)
Definition call {Op} (op : Op) (g : guarded Op) : guarded Op :=
  let (s, granted) := enter op (condition g) in
  {| condition := s; inFlight := inFlight g ++ granted |}.

(** When a call of [f] settles, [ensure(exit)] leaves the condition; the
    settled call is the one between [before] and [after]. *)
Definition settle {Op} (before after : list Op) (g : guarded Op) : guarded Op :=
  let (s, granted) := exit (condition g) in
  {| condition := s; inFlight := before ++ after ++ granted |}.

Inductive step {Op} : guarded Op -> guarded Op -> Prop :=
  | step_call op g : step g (call op g)
  | step_settle op before after g :
      inFlight g = before ++ op :: after ->
      step g (settle before after g).

(** The counter counts the calls in flight and the calls that wait. *)
Definition consistent {Op} (g : guarded Op) : Prop :=
  count (condition g)
  = (Z.of_nat (length (inFlight g)) + Z.of_nat (length (waiting (condition g))))%Z
  /\ (Z.of_nat (length (inFlight g)) <= allowed (condition g))%Z.

(** The invariant of a run: a wrapped function is consistent and keeps the
    limit it was created with. *)
Definition within {Op} (limit : Z) (g : guarded Op) : Prop :=
  consistent g /\ allowed (condition g) = limit.

End Guard.

(** The three wrapped stage functions, created once when the script is
    loaded and shared by every cycle. *)
Record Throttles := {
  download_throttled : Guard.guarded Product;
  extractLayer_throttled : Guard.guarded Layer;
  pushLayer_throttled : Guard.guarded (option Layer)
}.

(** The [servers] array as the script initialises it. *)
Definition initial_servers {R} (E : Env R) : list string := [NOMADS E; NCEP E].

Definition initial_throttles {R} (E : Env R) : Throttles :=
  {| download_throttled := Guard.guard (Guard.n (Z.of_nat (length (initial_servers E))));
     extractLayer_throttled := Guard.guard (Guard.n 2);
     pushLayer_throttled := Guard.guard (Guard.n 8) |}.

(** One event of the run: a call or a settlement at one of the stages. *)
Inductive throttles_step : Throttles -> Throttles -> Prop :=
  | step_download t g :
      Guard.step (download_throttled t) g ->
      throttles_step t
        {| download_throttled := g;
           extractLayer_throttled := extractLayer_throttled t;
           pushLayer_throttled := pushLayer_throttled t |}
  | step_extract t g :
      Guard.step (extractLayer_throttled t) g ->
      throttles_step t
        {| download_throttled := download_throttled t;
           extractLayer_throttled := g;
           pushLayer_throttled := pushLayer_throttled t |}
  | step_push t g :
      Guard.step (pushLayer_throttled t) g ->
      throttles_step t
        {| download_throttled := download_throttled t;
           extractLayer_throttled := extractLayer_throttled t;
           pushLayer_throttled := g |}.

(** ** A concrete environment

    A six-hour cycle grid with products every three hours, used to run the
    definitions above on examples. *)

Module Sample.

Definition hour : Z := 3600000.

Definition floor6h (t : Z) : Z := (6 * hour * (t / (6 * hour)))%Z.

(** Three hours back: the previous forecast of the same cycle, or the last
    forecast of the previous cycle. *)
Definition previous (p : Product) : Product :=
  if (forecastHour p =? 0)%Z then
    {| ptype := ptype p;
       cycle := {| cycle_date := (fun t => t - 6 * hour)%Z <$> cycle_date (cycle p) |};
       forecastHour := 3 |}
  else
    {| ptype := ptype p; cycle := cycle p;
       forecastHour := forecastHour p - 3 |}.

Definition show (d : Date) : string :=
  match d with
  | Some t => pretty t
  | None => "NaN"
  end.

Definition gribName (p : Product) : string :=
  show (cycle_date (cycle p)) +:+ "/gfs.f" +:+ pretty (forecastHour p)
  +:+ "." +:+ ptype p +:+ ".grib2".

(** A dated layer is named after the validity time of its product, an
    alias after its recipe alone. *)
Definition layerName (l : Layer) : string :=
  if isCurrent l then
    "current/current-" +:+ name (recipe l) +:+ ".json"
  else
    show ((fun t => t + forecastHour (product l) * hour)%Z
            <$> cycle_date (cycle (product l)))
    +:+ "-" +:+ name (recipe l) +:+ ".json".

Definition cacheControl (l : Layer) : string :=
  if isCurrent l then "public, max-age=300" else "public, max-age=31536000".

Definition t_1125_12 : Z := 1385380800000.
Definition t_1125_18 : Z := 1385402400000.
Definition t_1126_00 : Z := 1385424000000.
Definition t_1126_06 : Z := 1385445600000.

Definition parse (s : string) : Date :=
  if String.eqb s "2013-11-25T12:00:00.000Z" then Some t_1125_12
  else if String.eqb s "2013-11-25T18:00:00.000Z" then Some t_1125_18
  else if String.eqb s "2013-11-26T00:00:00.000Z" then Some t_1126_00
  else if String.eqb s "2013-11-26T06:00:00.000Z" then Some t_1126_06
  else None.

Definition iso (t : Z) : string :=
  if (t =? t_1125_12)%Z then "2013-11-25T12:00:00.000Z"
  else if (t =? t_1125_18)%Z then "2013-11-25T18:00:00.000Z"
  else if (t =? t_1126_00)%Z then "2013-11-26T00:00:00.000Z"
  else if (t =? t_1126_06)%Z then "2013-11-26T06:00:00.000Z"
  else pretty t.

Definition env (http : string -> promise DownloadResult)
    (decoder : string -> option File -> Z * list GribRecord)
    (s3_put : string -> promise string) : Env string :=
  {| period := 6 * hour;
     snap := floor6h;
     product_previous := previous;
     product_rel := gribName;
     layer_rel := layerName;
     cacheControlFor := cacheControl;
     NOMADS := "nomads.ncep.noaa.gov";
     NCEP := "www.ftp.ncep.noaa.gov";
     S3_LAYER_HOME := "data/weather/";
     S3_BUCKET := "earth";
     unchanged := "unchanged";
     Date_parse := parse;
     toISOString := iso;
     GRIB_HOME := "scratch/";
     LAYER_HOME := "layers/";
     forecasts := [0; 3]%Z;
     http := http;
     decoder := decoder;
     s3_put := s3_put |}.

(** Answers of the outside world. *)
Definition ok200 (url : string) : promise DownloadResult :=
  Fulfilled {| statusCode := 200; received := 2048; duration := 1000;
               streamed := "GRIB" |}.

Definition notFound404 (url : string) : promise DownloadResult :=
  Fulfilled {| statusCode := 404; received := 0; duration := 10;
               streamed := "" |}.

Definition unreachable (url : string) : promise DownloadResult :=
  Rejected (TransportError "ECONNRESET").

Definition record_of (ref : string) (fh : Z) : GribRecord :=
  {| header := {| refTime := ref; forecastTime := fh |}; meta := None |}.

Definition decodes (filter : string) (input : option File) : Z * list GribRecord :=
  (0%Z, [record_of "2013-11-26T00:00:00.000Z" 0; record_of "2013-11-26T00:00:00.000Z" 0]).

Definition decodesNothing (filter : string) (input : option File)
    : Z * list GribRecord :=
  (0%Z, []).

Definition decoderFails (filter : string) (input : option File)
    : Z * list GribRecord :=
  (1%Z, []).

Definition stored (key : string) : promise string := Fulfilled ("etag-" +:+ key).

Definition storeDown (key : string) : promise string :=
  Rejected (StoreError "ServiceUnavailable").

Definition cycle00 : Cycle := {| cycle_date := Some t_1126_00 |}.

Definition product00 : Product :=
  {| ptype := "1.0"; cycle := cycle00; forecastHour := 0 |}.

Definition layer00 : Layer :=
  {| recipe := wi1000; product := product00; isCurrent := false |}.

Definition emptyWorld : World :=
  {| files := ∅;
     servers := ["nomads.ncep.noaa.gov"; "www.ftp.ncep.noaa.gov"];
     store := ∅; log := []; trace := [] |}.

Definition withFile (p : string) (f : File) (w : World) : World :=
  set_files (insert p f) w.

(** Three fetches were requested and none has settled yet. *)
Definition product03 : Product :=
  {| ptype := "1.0"; cycle := cycle00; forecastHour := 3 |}.

Definition product06 : Product :=
  {| ptype := "1.0"; cycle := cycle00; forecastHour := 6 |}.

Definition threeFetches (t : Throttles) : Throttles :=
  {| download_throttled :=
       Guard.call product06
         (Guard.call product03 (Guard.call product00 (download_throttled t)));
     extractLayer_throttled := extractLayer_throttled t;
     pushLayer_throttled := pushLayer_throttled t |}.

Definition fetchEnv : Env string := env ok200 decodes stored.
Definition missingEnv : Env string := env notFound404 decodes stored.
Definition unreachableEnv : Env string := env unreachable decodes stored.
Definition emptyEnv : Env string := env ok200 decodesNothing stored.
Definition brokenEnv : Env string := env ok200 decoderFails stored.

Definition gribPath00 : string := "scratch/1385424000000/gfs.f0.1.0.grib2".
Definition layerPath00 : string := "layers/1385424000000-wind-isobaric-1000hPa.json".
Definition key00 : string := "data/weather/1385424000000-wind-isobaric-1000hPa.json".

(** The product file of 2013-11-26T00:00Z is on disk. *)
Definition fetched : World := withFile gribPath00 (Grib "GRIB") emptyWorld.


(** ... or a layer built from this very cycle. *)
Definition freshLayer : World :=
  withFile layerPath00 (Json [record_of "2013-11-26T00:00:00.000Z" 0]) fetched.

(** The stale layer alone, its product file gone. *)
Definition staleOnly : World :=
  withFile layerPath00 (Json [record_of "2013-11-25T18:00:00.000Z" 6]) emptyWorld.

(** The remote object carries the reference time of this very cycle. *)
Definition published (w : World) : World :=
  set_store (insert ("earth", key00)
    {| obj_body := Json [record_of "2013-11-26T00:00:00.000Z" 0];
       obj_metadata := {[ "reference-time" := "2013-11-26T00:00:00.000Z" ]};
       obj_cacheControl := "public, max-age=31536000" |}) w.


(** Wall-clock time is 2013-11-26T06:00Z; the newest layers on disk are valid
    at 2013-11-25T21:00Z and were built from the 12:00Z cycle, forecast hour
    9, as their headers say. *)
Definition now0 : Z := t_1126_06.

Definition resolverWorld : World :=
  foldr (fun kv w =>
           withFile ("layers/1385413200000-" +:+ name (snd kv) +:+ ".json")
             (Json [record_of "2013-11-25T12:00:00.000Z" 9]) w)
    emptyWorld LAYER_RECIPES.

(** The Layer the search stops at: validity 21:00Z reached as 18:00Z + 3. *)
Definition foundLayer : Layer :=
  {| recipe := wi1000;
     product := {| ptype := "1.0"; cycle := {| cycle_date := Some t_1125_18 |};
                   forecastHour := 3 |};
     isCurrent := false |}.

(** The Product the header names. *)
Definition headerProduct : Product :=
  {| ptype := "1.0"; cycle := {| cycle_date := Some t_1125_12 |};
     forecastHour := 9 |}.

End Sample.

(** ** The two turns of a fetch

    [download] runs up to the politeness delay in the turn of its caller and
    resumes in the fulfilment callback of [tool.download]. *)

Section Turns.

Context {StoreResult : Type} (E : Env StoreResult).

(** The first turn: [None] when the local file is already there, otherwise
    the server taken from the pool and the remote path. *)
Definition downloadStart (product : Product) (w : World)
    : option (string * string) * World :=
  let localPath := product_path E (GRIB_HOME E) product in
  if bool_decide (is_Some (files w !! normalize localPath)) then
    (None, add_log (AlreadyExists localPath) w)
  else
    match nextServer E w with
    | (Fulfilled server, w1) =>
        let remotePath := product_path E ("http://" +:+ server) product in
        (Some (server, remotePath), add_log (Get remotePath) w1)
    | (Rejected _, w1) => (None, w1)
    end.

(** The callback that receives the result of the transfer. *)
Definition downloadDone (product : Product) (server remotePath : string)
    (result : DownloadResult) : M Product :=
  let localPath := product_path E (GRIB_HOME E) product in
  releaseServer server >>
  if (300 <=? statusCode result)%Z then
    log_info (DownloadFailed result) >>
    resolve product
  else
    mkdirp_sync localPath >>
    renameSync (Grib (streamed result)) localPath >>
    log_info (DownloadComplete remotePath) >>
    resolve product.

End Turns.

(** ** Kinds of effects *)

Definition isHttpGet (e : Effect) : Prop := exists url, e = HttpGet url.

Definition isGrib2json (e : Effect) : Prop :=
  exists filter productPath, e = Grib2json filter productPath.

Definition isStoreRequest (e : Effect) : Prop :=
  exists key, e = S3Head key \/ e = S3Put key.

(** From [w] to [w'] the trace only grew, by effects of the given kind. *)
Definition addsOnly (P : Effect -> Prop) (w w' : World) : Prop :=
  exists new, trace w' = new ++ trace w /\ Forall P new.

(** ** Lines of the log

    The log is kept newest first.  Every call of [download] logs, before
    anything else that names its Product, either that the local file is
    there or the request it sends; [processCycle] starts by logging its
    Cycle. *)

Definition isFetchLine (e : LogEntry) : bool :=
  match e with
  | AlreadyExists _ | Get _ => true
  | _ => false
  end.

(** The fetch lines among the entries [new], in the order in which they
    were logged. *)
Definition fetchLines (new : list LogEntry) : list LogEntry :=
  rev (List.filter isFetchLine new).

(** The Cycles logged by [processCycle] among the entries [new], in the
    order in which they were logged. *)
Definition cyclesStarted (new : list LogEntry) : list Cycle :=
  rev (omap (fun e => if e is CycleStarted c then Some c else None) new).

Section Logged.

Context {StoreResult : Type} (E : Env StoreResult).

(** [e] is the line that a fetch of [p] logs: the local path of [p] when
    the file is there, or its remote path on some server. *)
Definition fetchLineOf (p : Product) (e : LogEntry) : Prop :=
  e = AlreadyExists (product_path E (GRIB_HOME E) p)
  \/ exists server, e = Get (product_path E ("http://" +:+ server) p).

(** From [w] to [w'] the log only grew; the Cycles logged in between are
    [cs], and the fetch lines logged in between are those of the Products
    [ps], one line for each, in that order. *)
Definition logged (cs : list Cycle) (ps : list Product) (w w' : World) : Prop :=
  exists new,
    log w' = new ++ log w
    /\ cyclesStarted new = cs
    /\ Forall2 fetchLineOf ps (fetchLines new).

End Logged.

(** ** Layers that need no work *)

Section UpToDate.

Context {StoreResult : Type} (E : Env StoreResult).

(** Among the files [fs], the product file of the Layer is there and its
    layer file starts with a record whose reference time is at or after the
    cycle's. *)
Definition upToDate (fs : gmap string File) (l : Layer) : Prop :=
  is_Some (fs !! normalize (product_path E (GRIB_HOME E) (product l)))
  /\ exists r0 rest,
       fs !! normalize (layer_path E (LAYER_HOME E) l) = Some (Json (r0 :: rest))
       /\ date_ge (Date_parse E (refTime (header r0)))
            (cycle_date (cycle (product l))) = true.

End UpToDate.

(** ** Fetches in flight

    The calls of [download_throttled] that overlap in time.  Each turn of
    the event loop is one step: a call enters the guard; a call that was let
    in runs the first turn of [download]; the politeness delay ends and the
    request goes out; the transfer settles and the callback runs; the
    promise of a call settles and leaves the guard, which lets the next
    waiting call in. *)

Module Fetching.

(** Where a call that was let in stands. *)
Inductive stage :=
  | Entered
  | Delaying (server remotePath : string)
  | Transferring (server remotePath : string)
  | FromDisk.

Record state := {
  world : World;
  condition : Guard.state Product;
  calls : list (Product * stage)
}.

Definition letIn (ps : list Product) : list (Product * stage) :=
  map (fun p => (p, Entered)) ps.

(** The servers that the calls in flight took from the pool. *)
Definition held (cs : list (Product * stage)) : list string :=
  omap (fun c => match snd c with
                 | Delaying server _ | Transferring server _ => Some server
                 | Entered | FromDisk => None
                 end) cs.

Definition call (p : Product) (s : state) : state :=
  let (g, granted) := Guard.enter p (condition s) in
  {| world := world s; condition := g; calls := calls s ++ letIn granted |}.

Definition leave (before after : list (Product * stage)) (w : World) (s : state)
    : state :=
  let (g, granted) := Guard.exit (condition s) in
  {| world := w; condition := g; calls := before ++ after ++ letIn granted |}.

Section Steps.

Context {StoreResult : Type} (E : Env StoreResult).

Definition start (before after : list (Product * stage)) (p : Product)
    (s : state) : state :=
  match downloadStart E p (world s) with
  | (None, w) =>
      {| world := w; condition := condition s;
         calls := before ++ (p, FromDisk) :: after |}
  | (Some (server, remotePath), w) =>
      {| world := w; condition := condition s;
         calls := before ++ (p, Delaying server remotePath) :: after |}
  end.

Definition request (before after : list (Product * stage)) (p : Product)
    (server remotePath : string) (s : state) : state :=
  {| world := add_effect (HttpGet remotePath) (world s);
     condition := condition s;
     calls := before ++ (p, Transferring server remotePath) :: after |}.

(** The world after the transfer settled: the callback runs on a result,
    nothing runs on a rejection. *)
Definition respond (p : Product) (server remotePath : string) (w : World)
    : World :=
  match http E remotePath with
  | Fulfilled result => snd (downloadDone E p server remotePath result w)
  | Rejected _ => w
  end.

Inductive step : state -> state -> Prop :=
  | step_call p s : step s (call p s)
  | step_start p before after s :
      calls s = before ++ (p, Entered) :: after ->
      step s (start before after p s)
  | step_request p server remotePath before after s :
      calls s = before ++ (p, Delaying server remotePath) :: after ->
      step s (request before after p server remotePath s)
  | step_response p server remotePath before after s :
      calls s = before ++ (p, Transferring server remotePath) :: after ->
      step s (leave before after (respond p server remotePath (world s)) s)
  | step_from_disk p before after s :
      calls s = before ++ (p, FromDisk) :: after ->
      step s (leave before after (world s) s).

(** No call yet, the guard as [guard.n(servers.length)] makes it. *)
Definition initial (w : World) : state :=
  {| world := w;
     condition := Guard.n (Z.of_nat (length (initial_servers E)));
     calls := [] |}.

(** What every step keeps: the guard counts the calls in flight and the
    calls that wait, within its limit, and every server is in the pool or
    held by a call in flight. *)
Definition balanced (s : state) : Prop :=
  Guard.count (condition s)
  = (Z.of_nat (length (calls s))
     + Z.of_nat (length (Guard.waiting (condition s))))%Z
  /\ Guard.allowed (condition s) = Z.of_nat (length (initial_servers E))
  /\ (length (calls s) <= length (initial_servers E))%nat
  /\ servers (world s) ++ held (calls s) ≡ₚ initial_servers E.

End Steps.

End Fetching.

(** ** More sample worlds *)

Module Scenario.

Import Sample.

(** Both servers are out. *)
Definition noServers : World := set_servers (fun _ => []) emptyWorld.



(** The store refuses every upload. *)
Definition downEnv : Env string := env ok200 decodes storeDown.

(** Both products of the 2013-11-26T00:00Z cycle are on disk, and so are
    all their layers, built from that cycle. *)
Definition settled : World :=
  foldr (fun p w =>
           withFile (product_path fetchEnv (GRIB_HOME fetchEnv) p) (Grib "GRIB")
             (foldr (fun kv w =>
                       withFile (layer_path fetchEnv (LAYER_HOME fetchEnv)
                                   (gfs_layer (snd kv) p false))
                         (Json [record_of "2013-11-26T00:00:00.000Z" (forecastHour p)])
                         w)
                w LAYER_RECIPES))
    emptyWorld [product00; product03].

(** From 2013-11-26T00:00Z back to 2013-11-25T12:00Z. *)
Definition catchUp : Bounds := {| from := Some t_1126_00; until := Some t_1125_12 |}.

(** The world after the fetches of the cycle, and after its extractions,
    when the decoder fails. *)
Definition afterFetch : World :=
  snd (when_map (download brokenEnv) (cycleProducts brokenEnv cycle00)
         (add_log (CycleStarted cycle00) emptyWorld)).

Definition afterDecoder : World :=
  snd (when_map (extractLayers brokenEnv) [product00; product03] afterFetch).

(** One fetch was let in and took a server. *)
Definition oneFetch : Fetching.state :=
  Fetching.start fetchEnv [] [] product00
    (Fetching.call product00 (Fetching.initial fetchEnv emptyWorld)).

End Scenario.

(** * Properties *)

Ltac run :=
  unfold then_, resolve, reject, log_info, log_error, delay, mkdirp_sync,
    existsSync, renameSync, writeFileSync, unlinkSync, releaseServer,
    tool_download, date_toISOString; cbn.

Lemma normalize_dot_slash p : normalize ("./" +:+ p) = normalize p.
Proof. reflexivity. Qed.

Lemma array_pop_push {A} (l rest : list A) x :
  array_pop l = Some (x, rest) -> rest ++ [x] = l.
Proof.
  unfold array_pop. destruct (last l) as [y|] eqn:Hl; [|discriminate].
  intros [= <- <-]. apply last_Some in Hl as [l' ->].
  by rewrite removelast_last.
Qed.

Lemma array_pop_None {A} (l : list A) : array_pop l = None -> l = [].
Proof.
  unfold array_pop. destruct (last l) eqn:Hl; [discriminate|].
  intros _. by apply last_None.
Qed.

(** [when.map] runs its function on every element, whatever the others
    settle with. *)
Lemma when_map_snd {A B} (f : A -> M B) x rest w :
  snd (when_map f (x :: rest) w) = snd (when_map f rest (snd (f x w))).
Proof.
  cbn. destruct (f x w) as [[b|e] w1]; cbn; [|done].
  by destruct (when_map f rest w1) as [[bs|e] w2].
Qed.

(** What every call keeps, the whole map keeps. *)
Lemma when_map_preserves {A B} (f : A -> M B) (R : World -> World -> Prop)
    (xs : list A) :
  (forall w, R w w) ->
  (forall a b c, R a b -> R b c -> R a c) ->
  (forall x w, R w (snd (f x w))) ->
  forall w, R w (snd (when_map f xs w)).
Proof.
  intros Hrefl Htrans Hf. induction xs as [|x rest IH]; intros w; [apply Hrefl|].
  rewrite when_map_snd. eapply Htrans; [apply Hf|apply IH].
Qed.

Section Fetch.

Context {StoreResult : Type} (E : Env StoreResult).

Lemma download_existing product w :
  is_Some (files w !! normalize (product_path E (GRIB_HOME E) product)) ->
  download E product w =
    (Fulfilled product,
     add_log (AlreadyExists (product_path E (GRIB_HOME E) product)) w).
Proof.
  intros Hex. unfold download. run.
  by rewrite bool_decide_eq_true_2.
Qed.

Lemma download_missing product w :
  files w !! normalize (product_path E (GRIB_HOME E) product) = None ->
  download E product w =
    (let* server := nextServer E in
     let remotePath := product_path E ("http://" +:+ server) product in
     log_info (Get remotePath) >>
     delay (10 * 1000) >>
     let* result := tool_download E remotePath in
     releaseServer server >>
     if (300 <=? statusCode result)%Z then
       log_info (DownloadFailed result) >>
       resolve product
     else
       mkdirp_sync (product_path E (GRIB_HOME E) product) >>
       renameSync (Grib (streamed result)) (product_path E (GRIB_HOME E) product) >>
       log_info (DownloadComplete remotePath) >>
       resolve product) w.
Proof.
  intros Hno. unfold download at 1. unfold then_ at 1. unfold existsSync.
  rewrite bool_decide_eq_false_2; [done|].
  rewrite Hno. by intros [? ?].
Qed.

(** One call of [download] sends at most one request. *)
Lemma download_httpGets product w :
  (httpGets (snd (download E product w)) <= httpGets w + 1)%nat.
Proof.
  destruct (files w !! normalize (product_path E (GRIB_HOME E) product)) eqn:Hf.
  - rewrite download_existing; [|by eexists]. cbn. unfold httpGets. cbn. lia.
  - rewrite download_missing; [|done].
    unfold nextServer. run.
    destruct (array_pop (servers w)) as [[server rest]|]; cbn;
      match goal with |- context [http E ?u] => destruct (http E u) as [result|e] end;
      cbn; try destruct (300 <=? statusCode result)%Z; cbn;
      unfold httpGets; cbn; lia.
Qed.

(** C2: a Product whose local file exists is resolved at once, with the
    pool, the network and the files untouched (only the log grows); hence
    when the file is there after a first fetch, the second fetch is resolved
    from it and both together sent at most one request. *)
Theorem fetch_existing_is_immediate (product : Product) :
  (forall w,
     is_Some (files w !! normalize (product_path E (GRIB_HOME E) product)) ->
     exists w',
       download E product w = (Fulfilled product, w')
       /\ servers w' = servers w /\ trace w' = trace w
       /\ files w' = files w /\ store w' = store w)
  /\ (forall w r1 w1,
        download E product w = (r1, w1) ->
        is_Some (files w1 !! normalize (product_path E (GRIB_HOME E) product)) ->
        exists w2,
          download E product w1 = (Fulfilled product, w2)
          /\ servers w2 = servers w1 /\ trace w2 = trace w1
          /\ files w2 = files w1
          /\ (httpGets w2 <= httpGets w + 1)%nat).
Proof.
  split.
  - intros w Hex. eexists. rewrite download_existing; [|done].
    by repeat split.
  - intros w r1 w1 H1 Hex. eexists. rewrite download_existing; [|done].
    repeat split.
    pose proof (download_httpGets product w) as Hn. rewrite H1 in Hn.
    exact Hn.
Qed.

(** C5, as amended: a fetch that fails by its status code (300 or more)
    gives the server back to the pool, logs the failure and resolves with
    the Product after a single request; a fetch that fails by a transport
    error is rejected with that error, after a single request as well. *)
Theorem fetch_failure_outcome (product : Product) (w : World)
    (server : string) (rest : list string) :
  files w !! normalize (product_path E (GRIB_HOME E) product) = None ->
  array_pop (servers w) = Some (server, rest) ->
  let remotePath := product_path E ("http://" +:+ server) product in
  (forall result,
     http E remotePath = Fulfilled result ->
     (300 <= statusCode result)%Z ->
     exists w',
       download E product w = (Fulfilled product, w')
       /\ servers w' = servers w
       /\ log w' = DownloadFailed result :: Get remotePath :: log w
       /\ trace w' = HttpGet remotePath :: trace w
       /\ files w' = files w)
  /\ (forall e,
        http E remotePath = Rejected e ->
        exists w',
          download E product w = (Rejected e, w')
          /\ trace w' = HttpGet remotePath :: trace w
          /\ files w' = files w).
Proof.
  intros Hno Hpop remotePath. split.
  - intros result Hres Hcode. eexists.
    rewrite download_missing; [|done].
    unfold nextServer. run. rewrite Hpop. cbn.
    fold remotePath. rewrite Hres. cbn.
    rewrite (proj2 (Z.leb_le _ _) Hcode). cbn.
    repeat split. cbn. by apply array_pop_push.
  - intros e Hrej. eexists.
    rewrite download_missing; [|done].
    unfold nextServer. run. rewrite Hpop. cbn.
    fold remotePath. rewrite Hrej. cbn. by repeat split.
Qed.

End Fetch.

Section Publish.

Context {StoreResult : Type} (E : Env StoreResult).

Lemma head_reference_time (w : World) (key : string) :
  default ∅ (Metadata {| Metadata := obj_metadata <$> store w !! (S3_BUCKET E, key) |})
    !! "reference-time"
  = storedReferenceTime E w key.
Proof.
  unfold storedReferenceTime. cbn.
  destruct (store w !! (S3_BUCKET E, key)); cbn; [done|apply lookup_empty].
Qed.

(** What the predicate handed to the store decides, in words. *)
Lemma isNewerThan_spec (layer : Layer) (existing : HeadResult) (t : Z) :
  cycle_date (cycle (product layer)) = Some t ->
  let refTime := default ∅ (Metadata existing) !! "reference-time" in
  isNewerThan E layer existing = true
  <-> truthy refTime = false
      \/ (exists t0, refTime ≫= Date_parse E = Some t0 /\ (t0 < t)%Z)
      \/ isCurrent layer = true.
Proof.
  intros Ht refTime. unfold isNewerThan. fold refTime. rewrite Ht.
  rewrite !orb_true_iff, negb_true_iff. unfold date_lt.
  split.
  - intros [[H|H]|H]; [by left| |by right; right].
    right; left. destruct (refTime ≫= Date_parse E) as [t0|]; [|done].
    exists t0. split; [done|]. by apply Z.ltb_lt.
  - intros [H|[(t0 & H0 & Hlt)|H]]; [by left; left| |by right].
    left; right. rewrite H0. by apply Z.ltb_lt.
Qed.

(** The conditional upload asks for the metadata once and then uploads or
    not, as the predicate says. *)
Lemma uploadFile_trace path key metadata predicate cacheControl (w : World) :
  is_Some (files w !! normalize path) ->
  let existing := {| Metadata := obj_metadata <$> store w !! (S3_BUCKET E, key) |} in
  let w' := snd (uploadFile E path (S3_BUCKET E) key metadata predicate cacheControl w) in
  trace w' = (if predicate existing then [S3Put key; S3Head key] else [S3Head key])
             ++ trace w
  /\ files w' = files w.
Proof.
  intros [body Hbody] existing w'. subst w'.
  unfold uploadFile, headObject, putObject. run. fold existing.
  destruct (predicate existing); cbn; [|done].
  rewrite Hbody. by destruct (s3_put E key).
Qed.

Lemma pushLayer_present (layer : Layer) (w : World) (t : Z) :
  is_Some (files w !! normalize (layer_path E (LAYER_HOME E) layer)) ->
  cycle_date (cycle (product layer)) = Some t ->
  pushLayer E (Some layer) w =
    (let* result := uploadFile E (layer_path E (LAYER_HOME E) layer) (S3_BUCKET E)
                      (layer_path E (S3_LAYER_HOME E) layer)
                      {[ "reference-time" := toISOString E t ]}
                      (isNewerThan E layer) (cacheControlFor E layer) in
     log_info (Pushed (layer_path E (S3_LAYER_HOME E) layer)) >>
     resolve JsTrue) w.
Proof.
  intros Hex Ht. unfold pushLayer. unfold then_ at 1. unfold existsSync.
  rewrite bool_decide_eq_true_2; [|done]. cbn.
  rewrite Ht. reflexivity.
Qed.

Lemma pushLayer_absent (layer : Layer) (w : World) :
  files w !! normalize (layer_path E (LAYER_HOME E) layer) = None ->
  pushLayer E (Some layer) w =
    (Fulfilled JsNull,
     add_log (LayerFileNotFound (layer_path E (LAYER_HOME E) layer)) w).
Proof.
  intros Hno. unfold pushLayer. run.
  rewrite bool_decide_eq_false_2; [done|]. rewrite Hno. by intros [? ?].
Qed.

Lemma pushLayer_trace (layer : Layer) (w : World) (t : Z) :
  is_Some (files w !! normalize (layer_path E (LAYER_HOME E) layer)) ->
  cycle_date (cycle (product layer)) = Some t ->
  let key := layer_path E (S3_LAYER_HOME E) layer in
  let existing := {| Metadata := obj_metadata <$> store w !! (S3_BUCKET E, key) |} in
  trace (snd (pushLayer E (Some layer) w))
  = (if isNewerThan E layer existing then [S3Put key; S3Head key] else [S3Head key])
    ++ trace w.
Proof.
  intros Hex Ht key existing.
  rewrite (pushLayer_present layer w t Hex Ht).
  pose proof (uploadFile_trace (layer_path E (LAYER_HOME E) layer) key
    {[ "reference-time" := toISOString E t ]} (isNewerThan E layer)
    (cacheControlFor E layer) w Hex) as [Htr _].
  cbn zeta in Htr. fold existing in Htr. rewrite <- Htr.
  unfold then_.
  destruct (uploadFile E _ _ _ _ _ _ w) as [[result|e] w1]; reflexivity.
Qed.

(** C1: a push of a Layer whose file is on disk uploads if and only if the
    remote object has no stored reference time, or the stored time is
    strictly older than the reference time of the Layer's cycle, or the
    Layer is flagged as current; with the flag set it always uploads, and
    with the flag unset and a stored time that is newer or equal it only
    asks for the metadata. *)
Theorem push_uploads_iff_newer (layer : Layer) (w : World) (t : Z) :
  is_Some (files w !! normalize (layer_path E (LAYER_HOME E) layer)) ->
  cycle_date (cycle (product layer)) = Some t ->
  let key := layer_path E (S3_LAYER_HOME E) layer in
  let stored := storedReferenceTime E w key in
  let w' := snd (pushLayer E (Some layer) w) in
  let uploaded := trace w' = S3Put key :: S3Head key :: trace w in
  let skipped := trace w' = S3Head key :: trace w in
  (uploaded \/ skipped)
  /\ (uploaded <->
        truthy stored = false
        \/ (exists t0, stored ≫= Date_parse E = Some t0 /\ (t0 < t)%Z)
        \/ isCurrent layer = true)
  /\ (isCurrent layer = true -> uploaded)
  /\ (isCurrent layer = false ->
      forall t0, truthy stored = true -> stored ≫= Date_parse E = Some t0 ->
                 (t <= t0)%Z -> skipped).
Proof.
  intros Hex Ht key stored w' uploaded skipped.
  pose proof (pushLayer_trace layer w t Hex Ht) as Htr. cbn zeta in Htr.
  fold key in Htr. fold w' in Htr.
  pose proof (isNewerThan_spec layer
    {| Metadata := obj_metadata <$> store w !! (S3_BUCKET E, key) |} t Ht) as Hspec.
  cbn zeta in Hspec. rewrite head_reference_time in Hspec. fold stored in Hspec.
  destruct (isNewerThan E layer _) eqn:Hnew; cbn in Htr.
  - assert (Hc : truthy stored = false
        \/ (exists t0, stored ≫= Date_parse E = Some t0 /\ (t0 < t)%Z)
        \/ isCurrent layer = true) by (by apply Hspec).
    repeat split; try done; [by left|].
    intros Hcur t0 Htruthy Hparse Hle.
    destruct Hc as [Hc|[(t1 & H1 & Hlt)|Hc]]; [congruence| |congruence].
    rewrite Hparse in H1. injection H1 as <-. lia.
  - assert (Hn : ~ uploaded).
    { unfold uploaded. rewrite Htr. intros Heq.
      apply (f_equal length) in Heq. cbn in Heq. lia. }
    repeat split; try done; [by right| |].
    + intros Hc. apply Hspec in Hc. discriminate.
    + intros Hcur. assert (false = true) as Habs; [|discriminate].
      apply Hspec. by right; right.
Qed.

(** C6, as amended: when the conditional upload of a Layer completes, with
    whatever result, the push resolves with [true] and only logs; for a null
    Layer, and for a Layer whose local file is missing, it resolves with
    null. *)
Theorem push_resolves_true_or_null (layer : Layer) (w : World) :
  pushLayer E None w = (Fulfilled JsNull, w)
  /\ (files w !! normalize (layer_path E (LAYER_HOME E) layer) = None ->
      pushLayer E (Some layer) w =
        (Fulfilled JsNull,
         add_log (LayerFileNotFound (layer_path E (LAYER_HOME E) layer)) w))
  /\ (is_Some (files w !! normalize (layer_path E (LAYER_HOME E) layer)) ->
      forall t result w1,
        cycle_date (cycle (product layer)) = Some t ->
        uploadFile E (layer_path E (LAYER_HOME E) layer) (S3_BUCKET E)
          (layer_path E (S3_LAYER_HOME E) layer)
          {[ "reference-time" := toISOString E t ]}
          (isNewerThan E layer) (cacheControlFor E layer) w
        = (Fulfilled result, w1) ->
        pushLayer E (Some layer) w =
          (Fulfilled JsTrue,
           add_log (Pushed (layer_path E (S3_LAYER_HOME E) layer)) w1)).
Proof.
  split; [reflexivity|]. split; [apply pushLayer_absent|].
  intros Hex t result w1 Ht Hup.
  rewrite (pushLayer_present layer w t Hex Ht).
  unfold then_ at 1. rewrite Hup. reflexivity.
Qed.

End Publish.


Section Extract.

Context {StoreResult : Type} (E : Env StoreResult).

Implicit Types (layer : Layer) (w : World).

Lemma runDecoder_failed layer w code data :
  decoder E (filter (recipe layer))
    (files w !! normalize (product_path E (GRIB_HOME E) (product layer)))
  = (code, data) ->
  code <> 0%Z ->
  runDecoder E layer w =
    (Rejected (ReturnCode code),
     add_log (Grib2jsonFailed code (product_path E (GRIB_HOME E) (product layer)))
       (add_effect (Grib2json (filter (recipe layer))
                      (product_path E (GRIB_HOME E) (product layer))) w)).
Proof.
  intros Hdec Hcode. unfold runDecoder, tool_grib2json. run.
  rewrite Hdec. cbn. by rewrite (proj2 (Z.eqb_neq _ _) Hcode).
Qed.

Lemma runDecoder_empty layer w :
  decoder E (filter (recipe layer))
    (files w !! normalize (product_path E (GRIB_HOME E) (product layer)))
  = (0%Z, []) ->
  runDecoder E layer w =
    (Fulfilled None,
     add_log (NoLayerData (layer_path E (LAYER_HOME E) layer))
       (add_log (Processing (layer_path E (LAYER_HOME E) layer))
          (add_effect (Grib2json (filter (recipe layer))
                         (product_path E (GRIB_HOME E) (product layer))) w))).
Proof.
  intros Hdec. unfold runDecoder, tool_grib2json. run. by rewrite Hdec.
Qed.


(** Whatever the decoder answers, it is asked exactly once. *)
Lemma runDecoder_trace layer w :
  trace (snd (runDecoder E layer w))
  = Grib2json (filter (recipe layer))
      (product_path E (GRIB_HOME E) (product layer)) :: trace w.
Proof.
  unfold runDecoder, tool_grib2json, processLayer. run.
  destruct (decoder E _ _) as [code data]. cbn.
  destruct (code =? 0)%Z; cbn; [|done].
  destruct data; cbn; [done|].
  by destruct (product_date (product layer)).
Qed.

Lemma extractLayer_no_product layer w :
  files w !! normalize (product_path E (GRIB_HOME E) (product layer)) = None ->
  extractLayer E layer w =
    (Fulfilled None,
     add_log (ProductFileNotFound (product_path E (GRIB_HOME E) (product layer))) w).
Proof.
  intros Hno. unfold extractLayer. run.
  rewrite bool_decide_eq_false_2; [done|]. rewrite Hno. by intros [? ?].
Qed.

Lemma extractLayer_new layer w :
  is_Some (files w !! normalize (product_path E (GRIB_HOME E) (product layer))) ->
  files w !! normalize (layer_path E (LAYER_HOME E) layer) = None ->
  extractLayer E layer w = runDecoder E layer w.
Proof.
  intros Hp Hno. unfold extractLayer. unfold then_ at 1. unfold existsSync at 1.
  rewrite bool_decide_eq_true_2; [|done]. cbn [negb].
  unfold then_ at 1. unfold existsSync at 1.
  rewrite bool_decide_eq_false_2; [done|]. rewrite Hno. by intros [? ?].
Qed.

Lemma extractLayer_existing layer w r0 rest :
  is_Some (files w !! normalize (product_path E (GRIB_HOME E) (product layer))) ->
  files w !! normalize (layer_path E (LAYER_HOME E) layer) = Some (Json (r0 :: rest)) ->
  extractLayer E layer w =
    if date_ge (Date_parse E (refTime (header r0)))
         (cycle_date (cycle (product layer)))
    then (Fulfilled (Some layer),
          add_log (NewerLayerExists (layer_path E (LAYER_HOME E) layer)) w)
    else runDecoder E layer
           (add_log (ReplacingObsoleteLayer (layer_path E (LAYER_HOME E) layer)) w).
Proof.
  intros Hp Hl. unfold extractLayer. unfold then_ at 1. unfold existsSync at 1.
  rewrite bool_decide_eq_true_2; [|done]. cbn [negb].
  unfold then_ at 1. unfold existsSync at 1.
  rewrite bool_decide_eq_true_2; [|by rewrite Hl].
  unfold then_ at 1. unfold readJSONSync.
  rewrite normalize_dot_slash, Hl.
  unfold then_ at 1. cbn [first_record]. unfold resolve at 1.
  by destruct (date_ge _ _).
Qed.

(** An existing layer file without a first record makes the extraction
    throw before the decoder is run. *)
Lemma extractLayer_unreadable layer w f :
  is_Some (files w !! normalize (product_path E (GRIB_HOME E) (product layer))) ->
  files w !! normalize (layer_path E (LAYER_HOME E) layer) = Some f ->
  (forall r0 rest, f <> Json (r0 :: rest)) ->
  extractLayer E layer w = (Rejected TypeError, w).
Proof.
  intros Hp Hl Hf. unfold extractLayer. unfold then_ at 1. unfold existsSync at 1.
  rewrite bool_decide_eq_true_2; [|done]. cbn [negb].
  unfold then_ at 1. unfold existsSync at 1.
  rewrite bool_decide_eq_true_2; [|by rewrite Hl].
  unfold then_ at 1. unfold readJSONSync.
  rewrite normalize_dot_slash, Hl.
  destruct f as [body|[|r0 rest]]; [done|done|].
  by destruct (Hf r0 rest).
Qed.


(** C4: when the decoder's output has no record, extraction writes no file,
    and where the decoder was run it resolves with null; a push of a null
    Layer, or of a Layer whose file is missing, resolves with null and does
    not touch the store. *)
Theorem empty_result_is_a_noop layer w :
  (decoder E (filter (recipe layer))
     (files w !! normalize (product_path E (GRIB_HOME E) (product layer)))
   = (0%Z, []) ->
   files (snd (extractLayer E layer w)) = files w
   /\ (trace (snd (extractLayer E layer w))
       = Grib2json (filter (recipe layer))
           (product_path E (GRIB_HOME E) (product layer)) :: trace w ->
       fst (extractLayer E layer w) = Fulfilled None))
  /\ pushLayer E None w = (Fulfilled JsNull, w)
  /\ (files w !! normalize (layer_path E (LAYER_HOME E) layer) = None ->
      exists w',
        pushLayer E (Some layer) w = (Fulfilled JsNull, w')
        /\ trace w' = trace w /\ store w' = store w).
Proof.
  split; [|split; [reflexivity|]].
  - intros Hdec.
    destruct (files w !! normalize (product_path E (GRIB_HOME E) (product layer)))
      as [pf|] eqn:Hp.
    2:{ rewrite extractLayer_no_product; [|done]. cbn. split; [done|].
        intros Heq. apply (f_equal length) in Heq. cbn in Heq. lia. }
    assert (Hp' : is_Some (files w !! normalize
              (product_path E (GRIB_HOME E) (product layer)))) by (by rewrite Hp).
    destruct (files w !! normalize (layer_path E (LAYER_HOME E) layer))
      as [[body|[|r0 rest]]|] eqn:Hl.
    + rewrite (extractLayer_unreadable layer w _ Hp' Hl); [|done]. cbn.
      split; [done|].
      intros Heq. apply (f_equal length) in Heq. cbn in Heq. lia.
    + rewrite (extractLayer_unreadable layer w _ Hp' Hl); [|done]. cbn.
      split; [done|].
      intros Heq. apply (f_equal length) in Heq. cbn in Heq. lia.
    + rewrite (extractLayer_existing layer w r0 rest Hp' Hl).
      destruct (date_ge _ _).
      * cbn. split; [done|].
        intros Heq. apply (f_equal length) in Heq. cbn in Heq. lia.
      * rewrite runDecoder_empty; [done|]. cbn. by rewrite Hp.
    + rewrite (extractLayer_new layer w Hp' Hl).
      rewrite runDecoder_empty; [done|]. by rewrite Hp.
  - intros Hno. eexists. by rewrite pushLayer_absent.
Qed.


End Extract.


Section Scheduler.

Context {StoreResult : Type} (E : Env StoreResult).

Lemma loop_unfold {T} (task : Cycle -> T) fuel stop c :
  processCycles_loop E task (S fuel) stop c =
    if date_ge (cycle_date c) (cycle_date stop) then
      cons (task c) <$> processCycles_loop E task fuel stop (cycle_previous E c)
    else Some [].
Proof. reflexivity. Qed.

(** What is pushed for a cycle does not influence which cycles are visited. *)
Lemma loop_tasks {T} (task : Cycle -> T) fuel stop c :
  processCycles_loop E task fuel stop c
  = map task <$> processCycles_loop E id fuel stop c.
Proof.
  revert c. induction fuel as [|fuel IH]; intros c; [done|].
  rewrite !loop_unfold. destruct (date_ge _ _); [|done].
  rewrite IH. by destruct (processCycles_loop E id fuel stop _).
Qed.

(** More fuel does not change the outcome of a loop that ended. *)
Lemma loop_more_fuel {T} (task : Cycle -> T) fuel fuel' stop c l :
  processCycles_loop E task fuel stop c = Some l ->
  (fuel <= fuel')%nat ->
  processCycles_loop E task fuel' stop c = Some l.
Proof.
  revert fuel' c l. induction fuel as [|fuel IH]; intros fuel' c l; [done|].
  destruct fuel' as [|fuel']; [lia|]. rewrite !loop_unfold.
  destruct (date_ge _ _); [|done].
  destruct (processCycles_loop E task fuel stop _) as [l0|] eqn:Hl0; [|done].
  intros Hl Hle. by rewrite (IH fuel' _ l0 Hl0); [|lia].
Qed.

Lemma loop_deterministic {T} (task : Cycle -> T) fuel fuel' stop c l l' :
  processCycles_loop E task fuel stop c = Some l ->
  processCycles_loop E task fuel' stop c = Some l' ->
  l = l'.
Proof.
  intros Hl Hl'.
  apply (loop_more_fuel task fuel (Nat.max fuel fuel')) in Hl; [|lia].
  apply (loop_more_fuel task fuel' (Nat.max fuel fuel')) in Hl'; [|lia].
  congruence.
Qed.

(** Every step back lowers a valid timestamp by one period, so the loop
    ends. *)
Lemma loop_terminates {T} (task : Cycle -> T) stop :
  (0 < period E)%Z ->
  forall (n : nat) c,
    (forall x y, cycle_date c = Some x -> cycle_date stop = Some y ->
                 (x - y < Z.of_nat n)%Z) ->
    exists l, processCycles_loop E task (S n) stop c = Some l.
Proof.
  intros Hperiod. induction n as [|n IH]; intros c Hc; rewrite loop_unfold.
  - destruct (date_ge _ _) eqn:Hge; [|eauto]. exfalso.
    unfold date_ge in Hge.
    destruct (cycle_date c) as [x|], (cycle_date stop) as [y|]; try done.
    apply Z.leb_le in Hge. specialize (Hc x y eq_refl eq_refl). lia.
  - destruct (date_ge _ _) eqn:Hge; [|eauto].
    destruct (IH (cycle_previous E c)) as [l Hl].
    { intros x y Hx Hy. cbn in Hx. unfold date_ge in Hge. rewrite Hy in Hge.
      destruct (cycle_date c) as [x0|] eqn:Hx0; [|done].
      cbn in Hx. injection Hx as <-. apply Z.leb_le in Hge.
      specialize (Hc x0 y eq_refl Hy). lia. }
    rewrite Hl. eauto.
Qed.

Lemma loop_total {T} (task : Cycle -> T) stop c :
  (0 < period E)%Z ->
  exists fuel l, processCycles_loop E task fuel stop c = Some l.
Proof.
  intros Hperiod.
  destruct (cycle_date c) as [x|] eqn:Hx, (cycle_date stop) as [y|] eqn:Hy.
  - destruct (loop_terminates task stop Hperiod (Z.to_nat (x - y + 1)) c) as [l Hl];
      [|eauto].
    intros x' y' Hx' Hy'. rewrite Hx in Hx'. rewrite Hy in Hy'.
    injection Hx' as <-. injection Hy' as <-. lia.
  - destruct (loop_terminates task stop Hperiod 0 c) as [l Hl]; [|eauto].
    intros x' y' _ Hy'. congruence.
  - destruct (loop_terminates task stop Hperiod 0 c) as [l Hl]; [|eauto].
    intros x' y' Hx' _. congruence.
  - destruct (loop_terminates task stop Hperiod 0 c) as [l Hl]; [|eauto].
    intros x' y' Hx' _. congruence.
Qed.

(** The cycles visited are the start, one step back, two steps back and so
    on, for as long as the timestamp is at or after the stop. *)
Lemma loop_visits fuel stop c l :
  processCycles_loop E id fuel stop c = Some l ->
  l = map (fun i => cycleBack E i c) (seq 0 (length l))
  /\ Forall (fun c' => date_ge (cycle_date c') (cycle_date stop) = true) l
  /\ date_ge (cycle_date (cycleBack E (length l) c)) (cycle_date stop) = false.
Proof.
  revert c l. induction fuel as [|fuel IH]; intros c l; [done|].
  rewrite loop_unfold. destruct (date_ge _ _) eqn:Hge.
  - destruct (processCycles_loop E id fuel stop _) as [l0|] eqn:Hl0; [|done].
    intros [= <-]. destruct (IH _ _ Hl0) as (Hmap & Hall & Hend).
    cbn [length seq map]. repeat split.
    + f_equal. rewrite <- seq_shift, map_map.
      rewrite Hmap at 1. apply map_ext. intros i.
      unfold cycleBack. by rewrite Nat.iter_succ_r.
    + by constructor.
    + unfold cycleBack in *. by rewrite Nat.iter_succ_r.
  - intros [= <-]. by repeat split.
Qed.

Lemma cycleProducts_length c :
  length (cycleProducts E c) = (length PRODUCT_TYPES * length (forecasts E))%nat.
Proof. unfold cycleProducts. cbn. rewrite app_nil_r, length_map. lia. Qed.

(** ** What a cycle leaves in the log *)

Lemma fetchLines_app (a b : list LogEntry) :
  fetchLines (a ++ b) = fetchLines b ++ fetchLines a.
Proof. unfold fetchLines. by rewrite List.filter_app, rev_app_distr. Qed.

Lemma cyclesStarted_app (a b : list LogEntry) :
  cyclesStarted (a ++ b) = cyclesStarted b ++ cyclesStarted a.
Proof. unfold cyclesStarted. by rewrite omap_app, rev_app_distr. Qed.

Lemma logged_refl w : logged E [] [] w w.
Proof. exists []. repeat split. constructor. Qed.

Lemma logged_trans cs1 ps1 cs2 ps2 a b c :
  logged E cs1 ps1 a b -> logged E cs2 ps2 b c ->
  logged E (cs1 ++ cs2) (ps1 ++ ps2) a c.
Proof.
  intros (n1 & H1 & C1 & F1) (n2 & H2 & C2 & F2). exists (n2 ++ n1).
  split; [by rewrite H2, H1, app_assoc|].
  split; [by rewrite cyclesStarted_app, C1, C2|].
  rewrite fetchLines_app. by apply Forall2_app.
Qed.

Lemma logged_quiet_trans a b c :
  logged E [] [] a b -> logged E [] [] b c -> logged E [] [] a c.
Proof. apply (logged_trans [] [] [] []). Qed.

Ltac quiet :=
  first [ by exists []; repeat split; constructor
        | by eexists [_]; repeat split; constructor
        | by eexists [_; _]; repeat split; constructor
        | by eexists [_; _; _]; repeat split; constructor
        | by eexists [_; _; _; _]; repeat split; constructor ].

(** A fetch logs one fetch line, that of its Product. *)
Lemma download_logged (p : Product) (w : World) :
  logged E [] [p] w (snd (download E p w)).
Proof.
  destruct (files w !! normalize (product_path E (GRIB_HOME E) p)) eqn:Hl.
  - rewrite download_existing; [|by rewrite Hl].
    eexists [_]. repeat split. constructor; [by left|constructor].
  - rewrite download_missing; [|done].
    unfold nextServer. run.
    destruct (array_pop (servers w)) as [[server rest]|]; cbn;
      match goal with |- context [http E ?u] => destruct (http E u) as [result|e] end;
      cbn; try destruct (300 <=? statusCode result)%Z; cbn.
    all: first [ eexists [_]; (split; [reflexivity|])
               | eexists [_; _]; (split; [reflexivity|])
               | eexists [_; _; _]; (split; [reflexivity|]) ];
      (split; [reflexivity|]);
      (constructor; [right; by eexists|constructor]).
Qed.

Lemma downloads_logged (ps : list Product) (w : World) :
  logged E [] ps w (snd (when_map (download E) ps w)).
Proof.
  revert w. induction ps as [|p rest IH]; intros w; [apply logged_refl|].
  rewrite when_map_snd.
  apply (logged_trans [] [p] [] rest _ (snd (download E p w)));
    [apply download_logged|apply IH].
Qed.

(** Extraction and publication log neither a Cycle nor a fetch line. *)
Lemma extractLayer_logged (l : Layer) (w : World) :
  logged E [] [] w (snd (extractLayer E l w)).
Proof.
  unfold extractLayer, runDecoder, tool_grib2json, processLayer, readJSONSync,
    first_record. run.
  destruct (bool_decide _); cbn; [|quiet].
  destruct (bool_decide _); cbn.
  - destruct (files w !! _) as [[body|[|r0 rest]]|]; cbn; try quiet.
    destruct (date_ge _ _); cbn; [quiet|].
    destruct (decoder E _ _) as [code data]; cbn.
    destruct (code =? 0)%Z; cbn; [|quiet].
    destruct data; cbn; [quiet|].
    destruct (product_date (product l)); cbn; quiet.
  - destruct (decoder E _ _) as [code data]; cbn.
    destruct (code =? 0)%Z; cbn; [|quiet].
    destruct data; cbn; [quiet|].
    destruct (product_date (product l)); cbn; quiet.
Qed.

Lemma extractLayers_logged (p : Product) (w : World) :
  logged E [] [] w (snd (extractLayers E p w)).
Proof.
  unfold extractLayers.
  apply (when_map_preserves (extractLayer E) (logged E [] []));
    [apply logged_refl|apply logged_quiet_trans|apply extractLayer_logged].
Qed.

Lemma pushLayer_logged (l : option Layer) (w : World) :
  logged E [] [] w (snd (pushLayer E l w)).
Proof.
  destruct l as [l|]; [|apply logged_refl].
  unfold pushLayer, uploadFile, headObject, putObject. run.
  destruct (bool_decide _); cbn; [|quiet].
  destruct (cycle_date (cycle (product l))); cbn; [|quiet].
  destruct (isNewerThan E l _); cbn; [|quiet].
  destruct (files w !! _); cbn; [|quiet].
  destruct (s3_put E _); cbn; quiet.
Qed.

Lemma pushLayers_logged (ls : list (option Layer)) (w : World) :
  logged E [] [] w (snd (pushLayers E ls w)).
Proof.
  unfold pushLayers.
  apply (when_map_preserves (pushLayer E) (logged E [] []));
    [apply logged_refl|apply logged_quiet_trans|apply pushLayer_logged].
Qed.

(** One call of [processCycle] logs its Cycle, and one fetch line for each
    Product of the Cycle. *)
Lemma processCycle_logged (c : Cycle) (w : World) :
  logged E [c] (cycleProducts E c) w (snd (processCycle E c w)).
Proof.
  assert (Hstart : logged E [c] [] w (add_log (CycleStarted c) w)).
  { eexists [_]. repeat split. constructor. }
  pose proof (downloads_logged (cycleProducts E c) (add_log (CycleStarted c) w))
    as Hfetch.
  pose proof (logged_trans _ _ _ _ _ _ _ Hstart Hfetch) as Hd. cbn [app] in Hd.
  unfold processCycle, then_ at 1 2, log_info at 1.
  destruct (when_map (download E) _ _) as [[downloads|e] w1]; [|exact Hd].
  assert (Hx : logged E [] [] w1 (snd (when_map (extractLayers E) downloads w1))).
  { apply (when_map_preserves (extractLayers E) (logged E [] []));
      [apply logged_refl|apply logged_quiet_trans|apply extractLayers_logged]. }
  pose proof (logged_trans _ _ _ _ _ _ _ Hd Hx) as Hdx.
  rewrite !app_nil_r in Hdx. cbn [app] in Hdx.
  unfold then_ at 1.
  destruct (when_map (extractLayers E) _ _) as [[extracted|e] w2]; [|exact Hdx].
  assert (Hp : logged E [] [] w2 (snd (when_map (pushLayers E) extracted w2))).
  { apply (when_map_preserves (pushLayers E) (logged E [] []));
      [apply logged_refl|apply logged_quiet_trans|apply pushLayers_logged]. }
  pose proof (logged_trans _ _ _ _ _ _ _ Hdx Hp) as Hdxp.
  rewrite !app_nil_r in Hdxp. cbn [app] in Hdxp.
  unfold then_.
  destruct (when_map (pushLayers E) _ _) as [[pushed|e] w3]; [|exact Hdxp].
  cbn [snd] in *. unfold log_info. cbn [snd].
  assert (Hend : logged E [] [] w3 (add_log BatchComplete w3)) by quiet.
  pose proof (logged_trans _ _ _ _ _ _ _ Hdxp Hend) as Hall.
  rewrite !app_nil_r in Hall. exact Hall.
Qed.

(** All the calls that [processCycles] collects, together. *)
Lemma cycles_logged (cycles : list Cycle) (w : World) :
  logged E cycles (flat_map (cycleProducts E) cycles) w
    (snd (when_all (map (processCycle E) cycles) w)).
Proof.
  unfold when_all. revert w.
  induction cycles as [|c rest IH]; intros w; [apply logged_refl|].
  cbn [map flat_map]. rewrite when_map_snd.
  apply (logged_trans [c] (cycleProducts E c) rest _ _ (snd (processCycle E c w)));
    [apply processCycle_logged|apply IH].
Qed.

(** C7: for every window the loop ends; the cycles it processes are the
    cycle built from [from] and its predecessors, one [previous()] after the
    other, for as long as the timestamp is at or after that of the cycle
    built from [until], and no other; when [from] and [until] are the same
    valid date that is exactly one cycle.  Processing a cycle logs that
    cycle and fetches one Product per declared type and forecast offset,
    each once; the whole run logs exactly the cycles of the window, in that
    order, and one fetch for each of their Products. *)
Theorem scheduler_walks_back (bounds : Bounds) :
  (0 < period E)%Z ->
  let stop := gfs_cycle E (until bounds) in
  let start := gfs_cycle E (from bounds) in
  exists fuel cycles,
    processCycles E fuel bounds = Some (when_all (map (processCycle E) cycles))
    /\ (forall fuel' cycles',
          processCycles_loop E id fuel' stop start = Some cycles' ->
          cycles' = cycles)
    /\ cycles = map (fun i => cycleBack E i start) (seq 0 (length cycles))
    /\ Forall (fun c => date_ge (cycle_date c) (cycle_date stop) = true) cycles
    /\ date_ge (cycle_date (cycleBack E (length cycles) start)) (cycle_date stop)
       = false
    /\ (forall t, from bounds = Some t -> until bounds = Some t ->
                  cycles = [start])
    /\ (forall c,
          cycleProducts E c
          = flat_map (fun type => map (gfs_product type c) (forecasts E))
              PRODUCT_TYPES
          /\ length (cycleProducts E c)
             = (length PRODUCT_TYPES * length (forecasts E))%nat)
    /\ (forall c w,
          logged E [c] (cycleProducts E c) w (snd (processCycle E c w)))
    /\ (forall w,
          logged E cycles (flat_map (cycleProducts E) cycles) w
            (snd (when_all (map (processCycle E) cycles) w))).
Proof.
  intros Hperiod stop start.
  destruct (loop_total id stop start Hperiod) as (fuel & cycles & Hloop).
  exists (S (S fuel)), cycles.
  assert (Hloop' : processCycles_loop E id (S (S fuel)) stop start = Some cycles)
    by (apply (loop_more_fuel id fuel); [done|lia]).
  destruct (loop_visits _ _ _ _ Hloop) as (Hmap & Hall & Hend).
  split; [|split; [|split; [|split; [|split; [|split; [|split; [|split]]]]]]];
    try done.
  - unfold processCycles. fold stop. fold start.
    rewrite loop_tasks, Hloop'. reflexivity.
  - intros fuel' cycles' H'. by apply (loop_deterministic id fuel' fuel stop start).
  - intros t Hfrom Huntil.
    apply (loop_deterministic id (S (S fuel)) 2 stop start); [done|].
    subst stop start. rewrite Hfrom, Huntil. cbn.
    rewrite Z.leb_refl. cbn.
    by rewrite (proj2 (Z.leb_gt _ _)); [|lia].
  - intros c. split; [done|apply cycleProducts_length].
  - apply processCycle_logged.
  - apply cycles_logged.
Qed.

End Scheduler.


Section Throttle.

Lemma enter_consistent {Op} (op : Op) (g : Guard.guarded Op) :
  Guard.consistent g ->
  Guard.consistent (Guard.call op g)
  /\ Guard.allowed (Guard.condition (Guard.call op g))
     = Guard.allowed (Guard.condition g).
Proof.
  intros [Hcount Hle]. unfold Guard.consistent, Guard.call, Guard.enter.
  destruct (Guard.count (Guard.condition g) <? Guard.allowed (Guard.condition g))%Z
    eqn:Hlt; cbn.
  - apply Z.ltb_lt in Hlt. rewrite length_app. cbn. lia.
  - rewrite app_nil_r, length_app. cbn. lia.
Qed.

Lemma exit_consistent {Op} (op : Op) (before after : list Op) (g : Guard.guarded Op) :
  Guard.inFlight g = before ++ op :: after ->
  Guard.consistent g ->
  Guard.consistent (Guard.settle before after g)
  /\ Guard.allowed (Guard.condition (Guard.settle before after g))
     = Guard.allowed (Guard.condition g).
Proof.
  intros Hin [Hcount Hle]. unfold Guard.consistent, Guard.settle, Guard.exit.
  rewrite Hin, length_app in Hcount, Hle. cbn in Hcount, Hle.
  destruct (Guard.waiting (Guard.condition g)) as [|d rest] eqn:Hw; cbn.
  - rewrite app_nil_r, length_app. cbn in Hcount. lia.
  - rewrite !length_app. cbn. cbn in Hcount. lia.
Qed.

Lemma step_consistent {Op} (g g' : Guard.guarded Op) :
  Guard.step g g' ->
  Guard.consistent g ->
  Guard.consistent g'
  /\ Guard.allowed (Guard.condition g') = Guard.allowed (Guard.condition g).
Proof.
  intros [op g0|op before after g0 Hin] Hg.
  - by apply enter_consistent.
  - by apply (exit_consistent op).
Qed.

Lemma within_step {Op} limit (g g' : Guard.guarded Op) :
  Guard.step g g' -> Guard.within limit g -> Guard.within limit g'.
Proof.
  intros Hstep [Hc Ha]. destruct (step_consistent g g' Hstep Hc) as [Hc' Ha'].
  split; [done|congruence].
Qed.

Lemma within_bound {Op} limit (g : Guard.guarded Op) :
  Guard.within limit g -> (Z.of_nat (length (Guard.inFlight g)) <= limit)%Z.
Proof. intros [[_ Hle] <-]. exact Hle. Qed.

Lemma reachable_within {R} (E : Env R) (t : Throttles) :
  rtc throttles_step (initial_throttles E) t ->
  Guard.within (Z.of_nat (length (initial_servers E))) (download_throttled t)
  /\ Guard.within 2 (extractLayer_throttled t)
  /\ Guard.within 8 (pushLayer_throttled t).
Proof.
  revert t. apply rtc_ind_r.
  - repeat split; cbn; lia.
  - intros t0 t1 _ Hstep (Hd & He & Hp). destruct Hstep as [t0 g Hg|t0 g Hg|t0 g Hg]; cbn;
      (split; [|split]); try done; eapply within_step; eauto.
Qed.

(** C9: in every state a run can reach, whatever the cycles and products the
    calls belong to, at most as many fetches are in flight as the server
    pool has servers, at most two extractions and at most eight pushes. *)
Theorem stages_never_exceed_their_limits {R} (E : Env R) (t : Throttles) :
  rtc throttles_step (initial_throttles E) t ->
  (length (Guard.inFlight (download_throttled t)) <= length (initial_servers E))%nat
  /\ (length (Guard.inFlight (extractLayer_throttled t)) <= 2)%nat
  /\ (length (Guard.inFlight (pushLayer_throttled t)) <= 8)%nat.
Proof.
  intros Hreach. destruct (reachable_within E t Hreach) as (Hd & He & Hp).
  apply within_bound in Hd, He, Hp. lia.
Qed.

End Throttle.


Section Resolver.

Context {StoreResult : Type} (E : Env StoreResult).

Lemma when_map_fulfilled {A B} (f : A -> M B) x rest w bs w' :
  when_map f (x :: rest) w = (Fulfilled bs, w') ->
  exists b bs' w1,
    f x w = (Fulfilled b, w1) /\ when_map f rest w1 = (Fulfilled bs', w')
    /\ bs = b :: bs'.
Proof.
  cbn. destruct (f x w) as [[b|e] w1]; [|done].
  destruct (when_map f rest w1) as [[bs'|e] w2] eqn:Hrest; [|done].
  intros [= <- <-]. by exists b, bs', w1.
Qed.

Lemma onlyPublishes_quiet layers w w' :
  trace w' = trace w -> store w' = store w -> onlyPublishes E layers w w'.
Proof.
  intros Ht Hs. split; [by exists []|]. intros k o Ho. left. by rewrite <- Hs.
Qed.

Lemma onlyPublishes_refl layers w : onlyPublishes E layers w w.
Proof. by apply onlyPublishes_quiet. Qed.



Lemma pushLayer_onlyPublishes (layer : Layer) (w : World) :
  onlyPublishes E [layer] w (snd (pushLayer E (Some layer) w)).
Proof.
  destruct (files w !! normalize (layer_path E (LAYER_HOME E) layer))
    as [body|] eqn:Hf.
  2:{ rewrite pushLayer_absent; [|done]. by apply onlyPublishes_quiet. }
  destruct (cycle_date (cycle (product layer))) as [t|] eqn:Ht.
  2:{ unfold pushLayer, existsSync, then_. rewrite bool_decide_eq_true_2; [|by rewrite Hf].
      cbn [negb]. rewrite Ht. apply onlyPublishes_refl. }
  rewrite (pushLayer_present E layer w t); [|by rewrite Hf|done].
  unfold uploadFile, headObject, putObject, then_, resolve, log_info.
  cbn [files add_effect].
  destruct (isNewerThan E layer _).
  - change (files (add_effect (S3Head (layer_path E (S3_LAYER_HOME E) layer)) w))
      with (files w).
    rewrite Hf. destruct (s3_put E _) as [r|e]; cbn.
    + split.
      * exists [S3Put (layer_path E (S3_LAYER_HOME E) layer);
                S3Head (layer_path E (S3_LAYER_HOME E) layer)].
        split; [done|]. intros e [<-|[<-|[]]]; exists layer; cbn; auto.
      * intros k o Ho. unfold add_log, set_store, add_effect in Ho. cbn [store] in Ho.
        destruct (decide (k = (S3_BUCKET E, layer_path E (S3_LAYER_HOME E) layer)))
          as [->|Hne].
        -- rewrite lookup_insert_eq in Ho. injection Ho as <-.
           right. exists layer, t. cbn. auto.
        -- rewrite lookup_insert_ne in Ho; [|done]. by left.
    + split; [|by left].
      exists [S3Put (layer_path E (S3_LAYER_HOME E) layer);
              S3Head (layer_path E (S3_LAYER_HOME E) layer)].
      split; [done|]. intros e' [<-|[<-|[]]]; exists layer; cbn; auto.
  - cbn. split; [|by left].
    exists [S3Head (layer_path E (S3_LAYER_HOME E) layer)].
    split; [done|]. intros e [<-|[]]. exists layer; cbn; auto.
Qed.






End Resolver.

Section ResolverTermination.

Context {StoreResult : Type} (E : Env StoreResult).

(** Stepping a Product backward yields a valid, strictly earlier validity
    time. *)
Hypothesis previous_is_earlier :
  forall p t, product_date p = Some t ->
    exists t', product_date (product_previous E p) = Some t' /\ (t' < t)%Z.

Lemma walkToNow_more_fuel fuel fuel' now l l' :
  walkToNow E fuel now l = Some l' -> (fuel <= fuel')%nat ->
  walkToNow E fuel' now l = Some l'.
Proof.
  revert fuel' l. induction fuel as [|fuel IH]; intros fuel' l; [done|].
  destruct fuel' as [|fuel']; [lia|]. cbn [walkToNow].
  destruct (date_gt (product_date (product l)) (Some now)); [|done].
  intros H Hle. apply IH; [done|lia].
Qed.

Lemma walkToDisk_more_fuel fuel fuel' limit l w r :
  walkToDisk E fuel limit l w = Some r -> (fuel <= fuel')%nat ->
  walkToDisk E fuel' limit l w = Some r.
Proof.
  revert fuel' l. induction fuel as [|fuel IH]; intros fuel' l; [done|].
  destruct fuel' as [|fuel']; [lia|]. cbn [walkToDisk].
  destruct (fst (existsSync (layer_path E (LAYER_HOME E) l) w)) as [[|]|];
    try done;
    (destruct (date_lt (product_date (product (layer_previous E l))) (Some limit));
     [done|]; intros H Hle; apply IH; [done|lia]).
Qed.

Lemma walkToNow_terminates now (n : nat) :
  forall l t,
    product_date (product l) = Some t -> (t - now <= Z.of_nat n)%Z ->
    exists l' t', walkToNow E (S n) now l = Some l'
                  /\ product_date (product l') = Some t'.
Proof.
  induction n as [|n IH]; intros l t Ht Hn; cbn [walkToNow];
    unfold date_gt, date_lt; rewrite Ht;
    destruct (now <? t)%Z eqn:Hlt; try (by exists l, t).
  - apply Z.ltb_lt in Hlt. lia.
  - apply Z.ltb_lt in Hlt.
    destruct (previous_is_earlier _ _ Ht) as (t' & Ht' & Hlt').
    apply (IH (layer_previous E l) t'); [done|lia].
Qed.

Lemma walkToDisk_terminates limit w (n : nat) :
  forall l t,
    product_date (product l) = Some t -> (t - limit < Z.of_nat n)%Z ->
    exists r, walkToDisk E (S n) limit l w = Some r.
Proof.
  induction n as [|n IH]; intros l t Ht Hn; cbn [walkToDisk];
    destruct (fst (existsSync _ w)) as [[|]|]; eauto;
    destruct (previous_is_earlier _ _ Ht) as (t' & Ht' & Hlt');
    cbn [layer_previous product]; rewrite Ht'; cbn [date_lt];
    destruct (t' <? limit)%Z eqn:Hlim; eauto;
    apply Z.ltb_ge in Hlim; try lia;
    apply (IH (layer_previous E l) t'); try done; lia.
Qed.

(** With enough fuel the search of [copyCurrent] ends, on a layer or by
    giving up. *)
Lemma findMostRecentLayer_total (now : Z) (w : World) :
  exists fuel r, findMostRecentLayer E fuel now w = Some r.
Proof.
  set (limit := (now - 3 * 24 * 60 * 60 * 1000)%Z).
  set (start := gfs_layer wi1000
    (gfs_product (default "" (PRODUCT_TYPES !! 0%nat))
       (cycle_next E (gfs_cycle E (Some now))) 0) false).
  assert (Hstart : product_date (product start)
                   = Some (snap E now + period E + 0 * 3600000)%Z) by done.
  destruct (walkToNow_terminates now
              (Z.to_nat (snap E now + period E + 0 * 3600000 - now)) start _ Hstart)
    as (l1 & t1 & Hwalk & Ht1); [lia|].
  destruct (walkToDisk_terminates limit w (Z.to_nat (t1 - limit + 1)) l1 t1 Ht1)
    as [r Hdisk]; [lia|].
  set (n1 := S (Z.to_nat (snap E now + period E + 0 * 3600000 - now))) in *.
  set (n2 := S (Z.to_nat (t1 - limit + 1))) in *.
  exists (Nat.max n1 n2), r. unfold findMostRecentLayer. fold start. fold limit.
  rewrite (walkToNow_more_fuel n1 _ now start l1 Hwalk); [|lia].
  cbn [mbind option_bind].
  apply (walkToDisk_more_fuel n2); [done|lia].
Qed.

End ResolverTermination.


(** * The properties at work on the sample environment *)

Section Runs.

Import Sample.

Lemma push_uploads_iff_newer_witness :
  is_Some (files (published freshLayer)
             !! normalize (layer_path fetchEnv (LAYER_HOME fetchEnv) layer00))
  /\ cycle_date (cycle (product layer00)) = Some t_1126_00
  /\ storedReferenceTime fetchEnv (published freshLayer) key00
     = Some "2013-11-26T00:00:00.000Z"
  /\ trace (snd (pushLayer fetchEnv (Some layer00) (published freshLayer)))
     = S3Head key00 :: trace (published freshLayer).
Proof.
  assert (Hex : is_Some (files (published freshLayer)
             !! normalize (layer_path fetchEnv (LAYER_HOME fetchEnv) layer00)))
    by (vm_compute; eauto).
  split; [exact Hex|]. split; [reflexivity|]. split; [vm_compute; reflexivity|].
  destruct (push_uploads_iff_newer fetchEnv layer00 (published freshLayer)
              t_1126_00 Hex eq_refl) as (_ & _ & _ & Hskip).
  apply (Hskip eq_refl t_1126_00); [vm_compute; reflexivity|vm_compute; reflexivity|lia].
Defined.

Lemma fetch_existing_is_immediate_witness :
  is_Some (files fetched
             !! normalize (product_path fetchEnv (GRIB_HOME fetchEnv) product00))
  /\ (exists w', download fetchEnv product00 fetched = (Fulfilled product00, w')
                 /\ servers w' = servers fetched /\ trace w' = trace fetched
                 /\ files w' = files fetched /\ store w' = store fetched)
  /\ (exists w2,
        download fetchEnv product00 (snd (download fetchEnv product00 emptyWorld))
        = (Fulfilled product00, w2)
        /\ (httpGets w2 <= httpGets emptyWorld + 1)%nat).
Proof.
  destruct (fetch_existing_is_immediate fetchEnv product00) as [Hskip Htwice].
  assert (Hex : is_Some (files fetched
             !! normalize (product_path fetchEnv (GRIB_HOME fetchEnv) product00)))
    by (vm_compute; eauto).
  split; [exact Hex|]. split; [exact (Hskip fetched Hex)|].
  destruct (Htwice emptyWorld
              (fst (download fetchEnv product00 emptyWorld))
              (snd (download fetchEnv product00 emptyWorld)))
    as (w2 & Hd & _ & _ & _ & Hn).
  - by destruct (download fetchEnv product00 emptyWorld).
  - vm_compute; eauto.
  - exists w2. by split.
Defined.



Lemma empty_result_is_a_noop_witness :
  decoder emptyEnv (filter (recipe layer00))
    (files fetched !! normalize (product_path emptyEnv (GRIB_HOME emptyEnv)
                                   (product layer00)))
  = (0%Z, [])
  /\ files (snd (extractLayer emptyEnv layer00 fetched)) = files fetched
  /\ fst (extractLayer emptyEnv layer00 fetched) = Fulfilled None
  /\ pushLayer emptyEnv None fetched = (Fulfilled JsNull, fetched)
  /\ exists w', pushLayer emptyEnv (Some layer00) fetched = (Fulfilled JsNull, w')
                /\ trace w' = trace fetched /\ store w' = store fetched.
Proof.
  destruct (empty_result_is_a_noop emptyEnv layer00 fetched)
    as (Hextract & Hnull & Hmissing).
  destruct (Hextract eq_refl) as [Hfiles Hres].
  split; [reflexivity|]. split; [exact Hfiles|].
  split; [apply Hres; vm_compute; reflexivity|].
  split; [exact Hnull|]. apply Hmissing. vm_compute; reflexivity.
Defined.

Lemma fetch_failure_outcome_witness :
  files emptyWorld !! normalize (product_path missingEnv (GRIB_HOME missingEnv) product00)
  = None
  /\ array_pop (servers emptyWorld)
     = Some ("www.ftp.ncep.noaa.gov", ["nomads.ncep.noaa.gov"])
  /\ (exists w', download missingEnv product00 emptyWorld = (Fulfilled product00, w')
                 /\ servers w' = servers emptyWorld
                 /\ trace w' = [HttpGet (product_path missingEnv
                                  ("http://" +:+ "www.ftp.ncep.noaa.gov") product00)])
  /\ (exists w', download unreachableEnv product00 emptyWorld
                 = (Rejected (TransportError "ECONNRESET"), w')).
Proof.
  split; [vm_compute; reflexivity|]. split; [reflexivity|]. split.
  - destruct (fetch_failure_outcome missingEnv product00 emptyWorld
                "www.ftp.ncep.noaa.gov" ["nomads.ncep.noaa.gov"])
      as [Hstatus _]; [vm_compute; reflexivity|reflexivity|].
    destruct (Hstatus {| statusCode := 404; received := 0; duration := 10;
                         streamed := "" |})
      as (w' & Hd & Hs & _ & Ht & _); [reflexivity|cbn; lia|].
    exists w'. by repeat split.
  - destruct (fetch_failure_outcome unreachableEnv product00 emptyWorld
                "www.ftp.ncep.noaa.gov" ["nomads.ncep.noaa.gov"])
      as [_ Herror]; [vm_compute; reflexivity|reflexivity|].
    destruct (Herror (TransportError "ECONNRESET")) as (w' & Hd & _); [reflexivity|].
    by exists w'.
Defined.

(** A transport error: the fetch is rejected, the server that was taken from
    the pool is not given back and no failure is logged. *)
Lemma fetch_transport_error_is_rejected :
  http unreachableEnv
    (product_path unreachableEnv ("http://" +:+ "www.ftp.ncep.noaa.gov") product00)
  = Rejected (TransportError "ECONNRESET")
  /\ fst (download unreachableEnv product00 emptyWorld)
     = Rejected (TransportError "ECONNRESET")
  /\ fst (download unreachableEnv product00 emptyWorld) <> Fulfilled product00
  /\ servers emptyWorld = ["nomads.ncep.noaa.gov"; "www.ftp.ncep.noaa.gov"]
  /\ servers (snd (download unreachableEnv product00 emptyWorld))
     = ["nomads.ncep.noaa.gov"]
  /\ log (snd (download unreachableEnv product00 emptyWorld))
     = [Get (product_path unreachableEnv
               ("http://" +:+ "www.ftp.ncep.noaa.gov") product00)].
Proof. repeat split; try (vm_compute; reflexivity). vm_compute. discriminate. Qed.

Lemma push_resolves_true_or_null_witness :
  is_Some (files freshLayer
             !! normalize (layer_path fetchEnv (LAYER_HOME fetchEnv) layer00))
  /\ fst (uploadFile fetchEnv layerPath00 "earth" key00
            {[ "reference-time" := "2013-11-26T00:00:00.000Z" ]}
            (isNewerThan fetchEnv layer00) (cacheControl layer00) freshLayer)
     = Fulfilled ("etag-" +:+ key00)
  /\ fst (pushLayer fetchEnv (Some layer00) freshLayer) = Fulfilled JsTrue.
Proof.
  assert (Hex : is_Some (files freshLayer
             !! normalize (layer_path fetchEnv (LAYER_HOME fetchEnv) layer00)))
    by (vm_compute; eauto).
  split; [exact Hex|]. split; [vm_compute; reflexivity|].
  destruct (push_resolves_true_or_null fetchEnv layer00 freshLayer)
    as (_ & _ & Hpresent).
  rewrite (Hpresent Hex t_1126_00 ("etag-" +:+ key00)
             (snd (uploadFile fetchEnv layerPath00 "earth" key00
                     {[ "reference-time" := "2013-11-26T00:00:00.000Z" ]}
                     (isNewerThan fetchEnv layer00) (cacheControl layer00)
                     freshLayer)) eq_refl);
    [reflexivity|vm_compute; reflexivity].
Defined.

(** The store uploaded the layer and answered with its result, yet the push
    resolves with [true]. *)
Lemma push_resolves_with_true_not_the_result :
  fst (uploadFile fetchEnv layerPath00 "earth" key00
         {[ "reference-time" := "2013-11-26T00:00:00.000Z" ]}
         (isNewerThan fetchEnv layer00) (cacheControl layer00) freshLayer)
  = Fulfilled ("etag-" +:+ key00)
  /\ trace (snd (pushLayer fetchEnv (Some layer00) freshLayer))
     = [S3Put key00; S3Head key00]
  /\ fst (pushLayer fetchEnv (Some layer00) freshLayer) = Fulfilled JsTrue
  /\ fst (pushLayer fetchEnv (Some layer00) freshLayer)
     <> Fulfilled (JsObject ("etag-" +:+ key00)).
Proof. repeat split; try (vm_compute; reflexivity). vm_compute. discriminate. Qed.

Lemma scheduler_walks_back_witness :
  (0 < period fetchEnv)%Z
  /\ exists fuel,
       processCycles fetchEnv fuel {| from := Some t_1126_00; until := Some t_1126_00 |}
       = Some (when_all [processCycle fetchEnv cycle00])
       /\ cycleProducts fetchEnv cycle00 = [product00; product03]
       /\ logged fetchEnv [cycle00] [product00; product03] emptyWorld
            (snd (when_all [processCycle fetchEnv cycle00] emptyWorld)).
Proof.
  assert (Hperiod : (0 < period fetchEnv)%Z) by (vm_compute; reflexivity).
  split; [exact Hperiod|].
  destruct (scheduler_walks_back fetchEnv
              {| from := Some t_1126_00; until := Some t_1126_00 |} Hperiod)
    as (fuel & cycles & Hrun & _ & _ & _ & _ & Hone & Hproducts & _ & Hlog).
  exists fuel. rewrite (Hone t_1126_00 eq_refl eq_refl) in Hrun, Hlog.
  split; [exact Hrun|].
  split; [destruct (Hproducts cycle00) as [-> _]; reflexivity|].
  exact (Hlog emptyWorld).
Defined.


Lemma stages_never_exceed_their_limits_witness :
  rtc throttles_step (initial_throttles fetchEnv)
    (threeFetches (initial_throttles fetchEnv))
  /\ Guard.inFlight (download_throttled (threeFetches (initial_throttles fetchEnv)))
     = [product00; product03]
  /\ Guard.waiting (Guard.condition
       (download_throttled (threeFetches (initial_throttles fetchEnv))))
     = [product06]
  /\ (length (Guard.inFlight
        (download_throttled (threeFetches (initial_throttles fetchEnv))))
      <= length (initial_servers fetchEnv))%nat.
Proof.
  assert (Hreach : rtc throttles_step (initial_throttles fetchEnv)
                     (threeFetches (initial_throttles fetchEnv))).
  { eapply rtc_l; [apply step_download, (Guard.step_call product00)|].
    eapply rtc_l; [apply step_download, (Guard.step_call product03)|].
    eapply rtc_l; [apply step_download, (Guard.step_call product06)|].
    apply rtc_refl. }
  split; [exact Hreach|]. split; [reflexivity|]. split; [reflexivity|].
  destruct (stages_never_exceed_their_limits fetchEnv _ Hreach) as (Hd & _ & _).
  exact Hd.
Defined.


End Runs.


(** * More of the script *)

Section ServerPool.

Context {StoreResult : Type} (E : Env StoreResult).

Lemma array_pop_app {A} (l : list A) x : array_pop (l ++ [x]) = Some (x, l).
Proof. unfold array_pop. by rewrite last_snoc, removelast_last. Qed.

(** X1: taking a server from a pool that is not empty and giving it back
    leaves the pool as it was, in the same order, and logs nothing. *)
Theorem release_after_next_restores_pool (w w1 : World) (server : string) :
  servers w <> [] ->
  nextServer E w = (Fulfilled server, w1) ->
  servers (snd (releaseServer server w1)) = servers w
  /\ log w1 = log w
  /\ length (servers w1) = pred (length (servers w)).
Proof.
  intros Hne. unfold nextServer.
  destruct (array_pop (servers w)) as [[s rest]|] eqn:Hpop.
  - intros [= <- <-]. cbn. apply array_pop_push in Hpop.
    repeat split; [done|]. rewrite <- Hpop, length_app. cbn. lia.
  - by apply array_pop_None in Hpop.
Qed.

(** X2: the pool is a stack: the server given back last is the one handed
    out next, whatever the pool held, and the pool is then as before the
    release. *)
Theorem next_after_release_is_last_released (w : World) (server : string) :
  exists w',
    nextServer E (snd (releaseServer server w)) = (Fulfilled server, w')
    /\ servers w' = servers w
    /\ log w' = log w.
Proof.
  eexists. unfold nextServer, releaseServer. cbn.
  rewrite array_pop_app. by repeat split.
Qed.

(** X3: on an empty pool [nextServer] still answers: it hands out NOMADS,
    logs the unexpected state and leaves the pool empty; giving that server
    back puts NOMADS into the pool. *)
Theorem next_on_empty_pool_falls_back (w : World) :
  servers w = [] ->
  nextServer E w = (Fulfilled (NOMADS E), add_log NoServersAvailable w)
  /\ servers (snd (releaseServer (NOMADS E) (add_log NoServersAvailable w)))
     = [NOMADS E].
Proof.
  intros Hempty. unfold nextServer, releaseServer. rewrite Hempty.
  split; [done|]. cbn. by rewrite Hempty.
Qed.

End ServerPool.

Section MoreFetch.

Context {StoreResult : Type} (E : Env StoreResult).

(** [download] is its first turn followed, when a server was taken, by the
    delay, the transfer and the callback. *)
Lemma download_turns (product : Product) (w : World) :
  download E product w =
    match downloadStart E product w with
    | (None, w1) => (Fulfilled product, w1)
    | (Some (server, remotePath), w1) =>
        (delay (10 * 1000) >>
         let* result := tool_download E remotePath in
         downloadDone E product server remotePath result) w1
    end.
Proof.
  unfold downloadStart.
  destruct (files w !! normalize (product_path E (GRIB_HOME E) product)) eqn:Hf.
  - rewrite download_existing; [|by rewrite Hf].
    rewrite bool_decide_eq_true_2; [done|by eexists].
  - rewrite download_missing; [|done].
    rewrite bool_decide_eq_false_2; [|by intros [? ?]].
    unfold then_ at 1. unfold nextServer.
    by destruct (array_pop (servers w)) as [[server rest]|].
Qed.

(** X4: a fetch whose file is missing and whose transfer ends with a status
    below 300 puts what was received at the local path, gives the server
    back, sends one request and resolves with the Product; every other file
    is as before. *)
Theorem fetch_success_stores_the_file (product : Product) (w : World)
    (server : string) (rest : list string) (result : DownloadResult) :
  files w !! normalize (product_path E (GRIB_HOME E) product) = None ->
  array_pop (servers w) = Some (server, rest) ->
  http E (product_path E ("http://" +:+ server) product) = Fulfilled result ->
  (statusCode result < 300)%Z ->
  exists w',
    download E product w = (Fulfilled product, w')
    /\ files w' = <[normalize (product_path E (GRIB_HOME E) product) :=
                      Grib (streamed result)]> (files w)
    /\ servers w' = servers w
    /\ trace w' = HttpGet (product_path E ("http://" +:+ server) product) :: trace w
    /\ store w' = store w.
Proof.
  intros Hno Hpop Hres Hcode. eexists.
  rewrite download_missing; [|done].
  unfold nextServer. run. rewrite Hpop. cbn. rewrite Hres. cbn.
  rewrite (proj2 (Z.leb_gt _ _) Hcode). cbn.
  repeat split. cbn. by apply array_pop_push.
Qed.

(** X5: whatever happens, a fetch removes or changes no file that was
    there, and never touches the remote store. *)
Theorem fetch_keeps_existing_files (product : Product) (w : World)
    (path : string) (f : File) :
  files w !! path = Some f ->
  files (snd (download E product w)) !! path = Some f
  /\ store (snd (download E product w)) = store w.
Proof.
  intros Hf.
  destruct (files w !! normalize (product_path E (GRIB_HOME E) product)) eqn:Hl.
  - rewrite download_existing; [|by rewrite Hl]. by cbn.
  - rewrite download_missing; [|done].
    unfold nextServer. run.
    destruct (array_pop (servers w)) as [[server rest]|]; cbn;
      match goal with |- context [http E ?u] => destruct (http E u) as [result|e] end;
      cbn; try destruct (300 <=? statusCode result)%Z; cbn; try done;
      (split; [|done]); rewrite lookup_insert_ne; try done;
      intros Heq; rewrite <- Heq in Hf; congruence.
Qed.

(** X6: when the transfer itself is rejected, the server taken for it is
    not given back: the pool is one server short afterwards, and nothing
    about the failure is logged. *)
Theorem fetch_rejected_transfer_keeps_the_server (product : Product) (w : World)
    (server : string) (rest : list string) (e : Error) :
  files w !! normalize (product_path E (GRIB_HOME E) product) = None ->
  array_pop (servers w) = Some (server, rest) ->
  http E (product_path E ("http://" +:+ server) product) = Rejected e ->
  servers (snd (download E product w)) = rest
  /\ servers w = rest ++ [server]
  /\ log (snd (download E product w))
     = Get (product_path E ("http://" +:+ server) product) :: log w.
Proof.
  intros Hno Hpop Hrej.
  rewrite download_missing; [|done].
  unfold nextServer. run. rewrite Hpop. cbn. rewrite Hrej. cbn.
  repeat split. symmetry. by apply array_pop_push.
Qed.

End MoreFetch.

Section MoreExtract.

Context {StoreResult : Type} (E : Env StoreResult).

Implicit Types (layer : Layer) (w : World).

(** X7: [processLayer] yields null on an empty output; on records it keeps
    their number, order and headers and gives every one of them the validity
    date of the Product as its [meta]; when that date is invalid it throws a
    [RangeError] instead. *)
Theorem processLayer_attaches_the_date layer (r : GribRecord)
    (rs : list GribRecord) w :
  processLayer E layer [] w = (Fulfilled None, w)
  /\ (product_date (product layer) = None ->
      processLayer E layer (r :: rs) w = (Rejected RangeError, w))
  /\ (forall t,
        product_date (product layer) = Some t ->
        exists data,
          processLayer E layer (r :: rs) w = (Fulfilled (Some data), w)
          /\ length data = length (r :: rs)
          /\ map header data = map header (r :: rs)
          /\ Forall (fun record => meta record = Some (toISOString E t)) data).
Proof.
  split; [done|]. split.
  - intros Hd. unfold processLayer. run. by rewrite Hd.
  - intros t Hd. eexists. unfold processLayer. run. rewrite Hd. cbn.
    split; [reflexivity|]. split; [cbn; by rewrite length_map|]. split.
    + cbn. f_equal. rewrite map_map. by apply map_ext.
    + constructor; [done|]. apply Forall_forall. intros x Hx.
      apply list_elem_of_In, in_map_iff in Hx as (y & <- & _). done.
Qed.

(** X8: without the product file the extraction resolves with null: the
    decoder is not run, no file is written, the layer file that may exist is
    not even read. *)
Theorem extract_without_product_is_null layer w :
  files w !! normalize (product_path E (GRIB_HOME E) (product layer)) = None ->
  exists w',
    extractLayer E layer w = (Fulfilled None, w')
    /\ trace w' = trace w /\ files w' = files w /\ store w' = store w
    /\ log w' = ProductFileNotFound (product_path E (GRIB_HOME E) (product layer))
                :: log w.
Proof.
  intros Hno. eexists. rewrite extractLayer_no_product; [|done]. by repeat split.
Qed.

(** The decoder is run at most once, on the product file, with the filter
    of the Layer's recipe. *)
Lemma extractLayer_trace layer w :
  trace (snd (extractLayer E layer w)) = trace w
  \/ trace (snd (extractLayer E layer w))
     = Grib2json (filter (recipe layer))
         (product_path E (GRIB_HOME E) (product layer)) :: trace w.
Proof.
  destruct (files w !! normalize (product_path E (GRIB_HOME E) (product layer)))
    as [pf|] eqn:Hp.
  2:{ rewrite extractLayer_no_product; [|done]. by left. }
  assert (Hp' : is_Some (files w !! normalize
            (product_path E (GRIB_HOME E) (product layer)))) by (by rewrite Hp).
  destruct (files w !! normalize (layer_path E (LAYER_HOME E) layer))
    as [[body|[|r0 rest]]|] eqn:Hl.
  - rewrite (extractLayer_unreadable E layer w _ Hp' Hl); [|done]. by left.
  - rewrite (extractLayer_unreadable E layer w _ Hp' Hl); [|done]. by left.
  - rewrite (extractLayer_existing E layer w r0 rest Hp' Hl).
    destruct (date_ge _ _); [by left|]. right. by rewrite runDecoder_trace.
  - rewrite (extractLayer_new E layer w Hp' Hl). right. by rewrite runDecoder_trace.
Qed.

(** What [runDecoder] leaves behind: only the layer file may differ. *)
Lemma runDecoder_frame layer w :
  store (snd (runDecoder E layer w)) = store w
  /\ servers (snd (runDecoder E layer w)) = servers w
  /\ forall path,
       path <> normalize (layer_path E (LAYER_HOME E) layer) ->
       files (snd (runDecoder E layer w)) !! path = files w !! path.
Proof.
  unfold runDecoder, tool_grib2json, processLayer. run.
  destruct (decoder E _ _) as [code data]. cbn.
  destruct (code =? 0)%Z; cbn; [|done].
  destruct data; cbn; [done|].
  destruct (product_date (product layer)); cbn; [|done].
  repeat split. intros path Hne. by rewrite lookup_insert_ne.
Qed.

(** X9: when the decoder exits with a code other than 0, no file is written
    and, once the decoder was run, the extraction is rejected with that
    code. *)
Theorem extract_decoder_failure_is_rejected layer w (code : Z)
    (output : list GribRecord) :
  decoder E (filter (recipe layer))
    (files w !! normalize (product_path E (GRIB_HOME E) (product layer)))
  = (code, output) ->
  code <> 0%Z ->
  files (snd (extractLayer E layer w)) = files w
  /\ (trace (snd (extractLayer E layer w))
      = Grib2json (filter (recipe layer))
          (product_path E (GRIB_HOME E) (product layer)) :: trace w ->
      fst (extractLayer E layer w) = Rejected (ReturnCode code)).
Proof.
  intros Hdec Hcode.
  assert (Hquiet : forall (a b : list Effect) e, a = b -> a = e :: b -> False).
  { intros a b e -> Heq. apply (f_equal length) in Heq. cbn in Heq. lia. }
  destruct (files w !! normalize (product_path E (GRIB_HOME E) (product layer)))
    as [pf|] eqn:Hp.
  2:{ rewrite extractLayer_no_product; [|done]. cbn. split; [done|].
      intros Heq. by destruct (Hquiet _ _ _ eq_refl Heq). }
  assert (Hp' : is_Some (files w !! normalize
            (product_path E (GRIB_HOME E) (product layer)))) by (by rewrite Hp).
  destruct (files w !! normalize (layer_path E (LAYER_HOME E) layer))
    as [[body|[|r0 rest]]|] eqn:Hl.
  - rewrite (extractLayer_unreadable E layer w _ Hp' Hl); [|done]. cbn.
    split; [done|]. intros Heq. by destruct (Hquiet _ _ _ eq_refl Heq).
  - rewrite (extractLayer_unreadable E layer w _ Hp' Hl); [|done]. cbn.
    split; [done|]. intros Heq. by destruct (Hquiet _ _ _ eq_refl Heq).
  - rewrite (extractLayer_existing E layer w r0 rest Hp' Hl).
    destruct (date_ge _ _).
    + cbn. split; [done|]. intros Heq. by destruct (Hquiet _ _ _ eq_refl Heq).
    + rewrite (runDecoder_failed E layer _ code output); [done| |done].
      cbn. by rewrite Hp.
  - rewrite (extractLayer_new E layer w Hp' Hl).
    rewrite (runDecoder_failed E layer _ code output); [done| |done].
    by rewrite Hp.
Qed.




Lemma extractLayer_frame layer w :
  store (snd (extractLayer E layer w)) = store w
  /\ servers (snd (extractLayer E layer w)) = servers w
  /\ forall path,
       path <> normalize (layer_path E (LAYER_HOME E) layer) ->
       files (snd (extractLayer E layer w)) !! path = files w !! path.
Proof.
  destruct (files w !! normalize (product_path E (GRIB_HOME E) (product layer)))
    as [pf|] eqn:Hp.
  2:{ by rewrite extractLayer_no_product. }
  assert (Hp' : is_Some (files w !! normalize
            (product_path E (GRIB_HOME E) (product layer)))) by (by rewrite Hp).
  destruct (files w !! normalize (layer_path E (LAYER_HOME E) layer))
    as [[body|[|r0 rest]]|] eqn:Hl.
  - by rewrite (extractLayer_unreadable E layer w _ Hp' Hl).
  - by rewrite (extractLayer_unreadable E layer w _ Hp' Hl).
  - rewrite (extractLayer_existing E layer w r0 rest Hp' Hl).
    destruct (date_ge _ _); [done|].
    apply (runDecoder_frame layer
      (add_log (ReplacingObsoleteLayer (layer_path E (LAYER_HOME E) layer)) w)).
  - rewrite (extractLayer_new E layer w Hp' Hl). apply runDecoder_frame.
Qed.

(** X13: an extraction never touches the pool or the remote store, and the
    only file it can change is the layer file of its own Layer: the product
    file it reads and the files of other Layers are as before. *)
Theorem extract_touches_only_its_layer_file layer w (path : string) (f : File) :
  path <> normalize (layer_path E (LAYER_HOME E) layer) ->
  files w !! path = Some f ->
  files (snd (extractLayer E layer w)) !! path = Some f
  /\ store (snd (extractLayer E layer w)) = store w
  /\ servers (snd (extractLayer E layer w)) = servers w.
Proof.
  intros Hne Hf. destruct (extractLayer_frame layer w) as (Hs & Hv & Hfiles).
  by rewrite (Hfiles path Hne).
Qed.

End MoreExtract.

Section MoreLayers.

Context {StoreResult : Type} (E : Env StoreResult).

Lemma when_map_trace_sublist {A B} (f : A -> M B) (eff : A -> Effect)
    (xs : list A) :
  (forall x w, trace (snd (f x w)) = trace w
               \/ trace (snd (f x w)) = eff x :: trace w) ->
  forall w, exists new,
    trace (snd (when_map f xs w)) = new ++ trace w
    /\ sublist new (rev (map eff xs)).
Proof.
  intros Hf. induction xs as [|x rest IH]; intros w.
  - by exists [].
  - rewrite when_map_snd.
    destruct (IH (snd (f x w))) as (new & Hnew & Hsub). cbn [map rev].
    destruct (Hf x w) as [Hq|Hq]; rewrite Hq in Hnew.
    + exists new. split; [done|]. by apply sublist_inserts_r.
    + exists (new ++ [eff x]). split; [by rewrite <- app_assoc|].
      by apply sublist_app.
Qed.

Lemma when_map_results {A B} (f : A -> M B) (P : A -> B -> Prop) (xs : list A) :
  (forall x w b, fst (f x w) = Fulfilled b -> P x b) ->
  forall w bs, fst (when_map f xs w) = Fulfilled bs -> Forall2 P xs bs.
Proof.
  intros Hf. induction xs as [|x rest IH]; intros w bs.
  - cbn. intros [= <-]. constructor.
  - intros Hbs. destruct (when_map f (x :: rest) w) as [res w'] eqn:Hw.
    cbn in Hbs. subst res.
    apply when_map_fulfilled in Hw as (b & bs' & w1 & Hb & Hrest & ->).
    constructor.
    + apply (Hf x w). by rewrite Hb.
    + apply (IH w1). by rewrite Hrest.
Qed.

Lemma extractLayer_result (layer : Layer) (w : World) (res : option Layer) :
  fst (extractLayer E layer w) = Fulfilled res -> res = None \/ res = Some layer.
Proof.
  destruct (files w !! normalize (product_path E (GRIB_HOME E) (product layer)))
    as [pf|] eqn:Hp.
  2:{ rewrite extractLayer_no_product; [|done]. cbn. intros [= <-]. by left. }
  assert (Hp' : is_Some (files w !! normalize
            (product_path E (GRIB_HOME E) (product layer)))) by (by rewrite Hp).
  assert (Hrun : forall w0, fst (runDecoder E layer w0) = Fulfilled res ->
                            res = None \/ res = Some layer).
  { intros w0. unfold runDecoder, tool_grib2json, processLayer. run.
    destruct (decoder E _ _) as [code data]. cbn.
    destruct (code =? 0)%Z; cbn; [|done].
    destruct data; cbn; [intros [= <-]; by left|].
    destruct (product_date (product layer)); cbn; [|done].
    intros [= <-]. by right. }
  destruct (files w !! normalize (layer_path E (LAYER_HOME E) layer))
    as [[body|[|r0 rest]]|] eqn:Hl.
  - by rewrite (extractLayer_unreadable E layer w _ Hp' Hl).
  - by rewrite (extractLayer_unreadable E layer w _ Hp' Hl).
  - rewrite (extractLayer_existing E layer w r0 rest Hp' Hl).
    destruct (date_ge _ _); [cbn; intros [= <-]; by right|apply Hrun].
  - rewrite (extractLayer_new E layer w Hp' Hl). apply Hrun.
Qed.

Lemma layers_enumerated (product : Product) :
  omap (fun recipeId => (fun r => gfs_layer r product false) <$> recipeOf recipeId)
    recipeIds
  = map (fun r => gfs_layer r product false)
      [wi10; wi70; wi250; wi500; wi700; wi850; wi1000].
Proof. reflexivity. Qed.

(** X14: [extractLayers] handles one Layer per recipe of the Product, none
    of them current, in the order of [LAYER_RECIPES]; it runs the decoder at
    most once per recipe, always on the product file and with the recipe's
    filter, and each result is null or the Layer of that recipe. *)
Theorem extractLayers_runs_each_recipe_at_most_once (p : Product)
    (w : World) :
  let recipes := [wi10; wi70; wi250; wi500; wi700; wi850; wi1000] in
  exists new,
    trace (snd (extractLayers E p w)) = new ++ trace w
    /\ sublist new
         (rev (map (fun r => Grib2json (filter r)
                               (product_path E (GRIB_HOME E) p)) recipes))
    /\ forall results,
         fst (extractLayers E p w) = Fulfilled results ->
         Forall2 (fun r res => res = None \/ res = Some (gfs_layer r p false))
           recipes results.
Proof.
  intros recipes. unfold extractLayers. rewrite layers_enumerated. fold recipes.
  destruct (when_map_trace_sublist (extractLayer E)
              (fun l => Grib2json (filter (recipe l))
                          (product_path E (GRIB_HOME E) (product l)))
              (map (fun r => gfs_layer r p false) recipes)
              (extractLayer_trace E) w) as (new & Hnew & Hsub).
  exists new. split; [exact Hnew|]. split.
  - by rewrite map_map in Hsub.
  - intros results Hres.
    apply (when_map_results (extractLayer E)
             (fun l res => res = None \/ res = Some l)) in Hres;
      [|intros x w0 b; apply extractLayer_result].
    apply Forall2_fmap_l in Hres. exact Hres.
Qed.

Lemma extract_all_without_product (p : Product) (layers : list Layer) :
  Forall (fun l => product l = p) layers ->
  forall w,
    files w !! normalize (product_path E (GRIB_HOME E) p) = None ->
    fst (when_map (extractLayer E) layers w) = Fulfilled (map (fun _ => None) layers)
    /\ trace (snd (when_map (extractLayer E) layers w)) = trace w
    /\ files (snd (when_map (extractLayer E) layers w)) = files w
    /\ store (snd (when_map (extractLayer E) layers w)) = store w.
Proof.
  induction 1 as [|l rest Hl Hrest IH]; intros w Hno; [done|].
  cbn [when_map map]. rewrite extractLayer_no_product; [|by rewrite Hl].
  set (w1 := add_log _ w).
  destruct (IH w1 Hno) as (Hres & Ht & Hf & Hs).
  destruct (when_map (extractLayer E) rest w1) as [[bs|e] w2]; [|done].
  cbn in *. by injection Hres as ->.
Qed.

(** X15: for a Product whose file is missing, as after a failed fetch,
    [extractLayers] resolves with one null per recipe: the decoder is not
    run and nothing is written, so the pushes that follow get only nulls. *)
Theorem extractLayers_without_product_is_all_null (product : Product) (w : World) :
  files w !! normalize (product_path E (GRIB_HOME E) product) = None ->
  fst (extractLayers E product w) = Fulfilled (replicate 7 None)
  /\ trace (snd (extractLayers E product w)) = trace w
  /\ files (snd (extractLayers E product w)) = files w
  /\ store (snd (extractLayers E product w)) = store w
  /\ forall w', pushLayers E (replicate 7 None) w'
                = (Fulfilled (replicate 7 JsNull), w').
Proof.
  intros Hno. unfold extractLayers. rewrite layers_enumerated.
  destruct (extract_all_without_product product
              (map (fun r => gfs_layer r product false)
                 [wi10; wi70; wi250; wi500; wi700; wi850; wi1000])) with (w := w)
    as (Hres & Ht & Hf & Hs); [by repeat constructor|done|].
  by repeat split.
Qed.

End MoreLayers.

Section MorePublish.

Context {StoreResult : Type} (E : Env StoreResult).

Implicit Types (layer : Layer) (w : World).

Lemma pushLayer_uploaded layer w (t : Z) (body : File) (r : StoreResult) :
  files w !! normalize (layer_path E (LAYER_HOME E) layer) = Some body ->
  cycle_date (cycle (product layer)) = Some t ->
  isNewerThan E layer
    {| Metadata := obj_metadata <$>
         store w !! (S3_BUCKET E, layer_path E (S3_LAYER_HOME E) layer) |} = true ->
  s3_put E (layer_path E (S3_LAYER_HOME E) layer) = Fulfilled r ->
  pushLayer E (Some layer) w =
    (Fulfilled JsTrue,
     add_log (Pushed (layer_path E (S3_LAYER_HOME E) layer))
       (set_store (insert (S3_BUCKET E, layer_path E (S3_LAYER_HOME E) layer)
          {| obj_body := body;
             obj_metadata := {[ "reference-time" := toISOString E t ]};
             obj_cacheControl := cacheControlFor E layer |})
          (add_effect (S3Put (layer_path E (S3_LAYER_HOME E) layer))
             (add_effect (S3Head (layer_path E (S3_LAYER_HOME E) layer)) w)))).
Proof.
  intros Hf Ht Hnew Hput.
  rewrite (pushLayer_present E layer w t); [|by rewrite Hf|done].
  unfold uploadFile, headObject, putObject, then_, resolve, log_info.
  rewrite Hnew.
  change (files (add_effect (S3Head (layer_path E (S3_LAYER_HOME E) layer)) w))
    with (files w).
  by rewrite Hf, Hput.
Qed.

(** X16: a push that uploads leaves under the Layer's key an object made of
    the local layer file, the reference time of the Layer's cycle as its
    only metadata and the cache control of the Layer; the local files are
    as before and the push resolves with [true]. *)
Theorem push_stores_the_layer_file layer w (t : Z) (body : File) (r : StoreResult) :
  files w !! normalize (layer_path E (LAYER_HOME E) layer) = Some body ->
  cycle_date (cycle (product layer)) = Some t ->
  isNewerThan E layer
    {| Metadata := obj_metadata <$>
         store w !! (S3_BUCKET E, layer_path E (S3_LAYER_HOME E) layer) |} = true ->
  s3_put E (layer_path E (S3_LAYER_HOME E) layer) = Fulfilled r ->
  exists w',
    pushLayer E (Some layer) w = (Fulfilled JsTrue, w')
    /\ store w' !! (S3_BUCKET E, layer_path E (S3_LAYER_HOME E) layer)
       = Some {| obj_body := body;
                 obj_metadata := {[ "reference-time" := toISOString E t ]};
                 obj_cacheControl := cacheControlFor E layer |}
    /\ (forall k, k <> (S3_BUCKET E, layer_path E (S3_LAYER_HOME E) layer) ->
                  store w' !! k = store w !! k)
    /\ files w' = files w.
Proof.
  intros Hf Ht Hnew Hput. eexists.
  rewrite (pushLayer_uploaded layer w t body r Hf Ht Hnew Hput).
  split; [reflexivity|]. cbn. split; [by rewrite lookup_insert_eq|].
  split; [|done]. intros k Hk. by rewrite lookup_insert_ne.
Qed.

(** X17: provided a date survives [toISOString] and parsing, the push that
    follows an upload of the same Layer only asks for the metadata when the
    Layer is not current, and uploads once more when it is. *)
Theorem push_again_after_upload layer w (t : Z) (body : File) (r : StoreResult) :
  files w !! normalize (layer_path E (LAYER_HOME E) layer) = Some body ->
  cycle_date (cycle (product layer)) = Some t ->
  isNewerThan E layer
    {| Metadata := obj_metadata <$>
         store w !! (S3_BUCKET E, layer_path E (S3_LAYER_HOME E) layer) |} = true ->
  s3_put E (layer_path E (S3_LAYER_HOME E) layer) = Fulfilled r ->
  Date_parse E (toISOString E t) = Some t ->
  toISOString E t <> "" ->
  let key := layer_path E (S3_LAYER_HOME E) layer in
  let w1 := snd (pushLayer E (Some layer) w) in
  (isCurrent layer = false ->
   trace (snd (pushLayer E (Some layer) w1)) = S3Head key :: trace w1
   /\ store (snd (pushLayer E (Some layer) w1)) = store w1)
  /\ (isCurrent layer = true ->
      trace (snd (pushLayer E (Some layer) w1))
      = S3Put key :: S3Head key :: trace w1).
Proof.
  intros Hf Ht Hnew Hput Hround Hnonempty key w1. subst w1.
  rewrite (pushLayer_uploaded layer w t body r Hf Ht Hnew Hput). cbn [snd].
  set (w1 := add_log _ _).
  assert (Hf1 : is_Some (files w1 !! normalize (layer_path E (LAYER_HOME E) layer)))
    by (unfold w1; cbn; by rewrite Hf).
  pose proof (pushLayer_trace E layer w1 t Hf1 Ht) as Htr. cbn zeta in Htr.
  fold key in Htr.
  assert (Hnew1 : isNewerThan E layer
            {| Metadata := obj_metadata <$> store w1 !! (S3_BUCKET E, key) |}
          = isCurrent layer).
  { unfold isNewerThan. rewrite head_reference_time. unfold storedReferenceTime.
    unfold w1. cbn [store add_log set_store]. fold key.
    rewrite lookup_insert_eq. cbn. rewrite lookup_singleton_eq. cbn.
    rewrite Hround, Ht. cbn. rewrite Z.ltb_irrefl.
    destruct (toISOString E t); [done|]. by cbn. }
  rewrite Hnew1 in Htr. split; intros Hcur; rewrite Hcur in Htr.
  - split; [exact Htr|].
    rewrite (pushLayer_present E layer w1 t Hf1 Ht).
    unfold uploadFile, headObject, then_, resolve, log_info.
    fold key. rewrite Hnew1, Hcur. reflexivity.
  - exact Htr.
Qed.

Lemma pushLayer_invalid_date layer w :
  is_Some (files w !! normalize (layer_path E (LAYER_HOME E) layer)) ->
  cycle_date (cycle (product layer)) = None ->
  pushLayer E (Some layer) w = (Rejected RangeError, w).
Proof.
  intros Hf Ht. unfold pushLayer, existsSync, then_.
  rewrite bool_decide_eq_true_2; [|done]. cbn [negb]. by rewrite Ht.
Qed.

(** X18: when the store refuses the upload, the push is rejected with the
    store's error; the remote object is as before and nothing is logged. *)
Theorem push_store_failure_is_rejected layer w (t : Z) (e : Error) :
  is_Some (files w !! normalize (layer_path E (LAYER_HOME E) layer)) ->
  cycle_date (cycle (product layer)) = Some t ->
  isNewerThan E layer
    {| Metadata := obj_metadata <$>
         store w !! (S3_BUCKET E, layer_path E (S3_LAYER_HOME E) layer) |} = true ->
  s3_put E (layer_path E (S3_LAYER_HOME E) layer) = Rejected e ->
  exists w',
    pushLayer E (Some layer) w = (Rejected e, w')
    /\ store w' = store w /\ log w' = log w /\ files w' = files w.
Proof.
  intros [body Hf] Ht Hnew Hput. eexists.
  rewrite (pushLayer_present E layer w t); [|by rewrite Hf|done].
  unfold uploadFile, headObject, putObject, then_, resolve, log_info.
  rewrite Hnew.
  change (files (add_effect (S3Head (layer_path E (S3_LAYER_HOME E) layer)) w))
    with (files w).
  by rewrite Hf, Hput.
Qed.

Lemma pushLayer_frame (layer : option Layer) w :
  files (snd (pushLayer E layer w)) = files w
  /\ servers (snd (pushLayer E layer w)) = servers w
  /\ forall v, fst (pushLayer E layer w) = Fulfilled v ->
               (layer = None -> v = JsNull) /\ (v = JsNull \/ v = JsTrue).
Proof.
  destruct layer as [layer|].
  2:{ cbn. repeat split; try done; intros; simplify_eq; auto. }
  destruct (files w !! normalize (layer_path E (LAYER_HOME E) layer))
    as [body|] eqn:Hf.
  2:{ rewrite pushLayer_absent; [|done]. cbn.
      repeat split; try done; intros; simplify_eq; auto. }
  destruct (cycle_date (cycle (product layer))) as [t|] eqn:Ht.
  2:{ rewrite pushLayer_invalid_date; [by repeat split|by rewrite Hf|done]. }
  rewrite (pushLayer_present E layer w t); [|by rewrite Hf|done].
  unfold uploadFile, headObject, putObject, then_, resolve, log_info.
  destruct (isNewerThan E layer _).
  - change (files (add_effect (S3Head (layer_path E (S3_LAYER_HOME E) layer)) w))
      with (files w).
    rewrite Hf. destruct (s3_put E _); cbn;
      repeat split; try done; intros; simplify_eq; auto.
  - cbn. repeat split; try done; intros; simplify_eq; auto.
Qed.

End MorePublish.


Section MorePipeline.

Context {StoreResult : Type} (E : Env StoreResult).

Lemma addsOnly_refl P w : addsOnly P w w.
Proof. by exists []. Qed.

Lemma addsOnly_trans P a b c : addsOnly P a b -> addsOnly P b c -> addsOnly P a c.
Proof.
  intros (n1 & H1 & F1) (n2 & H2 & F2). exists (n2 ++ n1).
  split; [by rewrite H2, H1, app_assoc|]. by apply Forall_app.
Qed.

Lemma addsOnly_weaken (P Q : Effect -> Prop) w w' :
  (forall e, P e -> Q e) -> addsOnly P w w' -> addsOnly Q w w'.
Proof.
  intros HPQ (new & Hn & Hall). exists new. split; [done|].
  eapply Forall_impl; eauto.
Qed.

Lemma addsOnly_log P e w w' : addsOnly P (add_log e w) w' -> addsOnly P w w'.
Proof. done. Qed.

(** X19: pushing a list of Layers never changes a local file or the server
    pool, and every value it resolves with is null or [true], null for a
    null Layer. *)
Theorem pushLayers_leaves_local_state (layers : list (option Layer)) (w : World) :
  files (snd (pushLayers E layers w)) = files w
  /\ servers (snd (pushLayers E layers w)) = servers w
  /\ forall values,
       fst (pushLayers E layers w) = Fulfilled values ->
       Forall2 (fun l v => (l = None -> v = JsNull) /\ (v = JsNull \/ v = JsTrue))
         layers values.
Proof.
  unfold pushLayers. split; [|split].
  - apply (when_map_preserves (pushLayer E) (fun a b => files b = files a));
      [done|congruence|]. intros l w0. apply pushLayer_frame.
  - apply (when_map_preserves (pushLayer E) (fun a b => servers b = servers a));
      [done|congruence|]. intros l w0. apply pushLayer_frame.
  - intros values. apply when_map_results. intros l w0 v. apply pushLayer_frame.
Qed.

Lemma download_addsOnly (p : Product) (w : World) :
  addsOnly isHttpGet w (snd (download E p w))
  /\ store (snd (download E p w)) = store w.
Proof.
  destruct (files w !! normalize (product_path E (GRIB_HOME E) p)) eqn:Hl.
  - rewrite download_existing; [|by rewrite Hl]. split; [by exists []|done].
  - rewrite download_missing; [|done].
    unfold nextServer. run.
    destruct (array_pop (servers w)) as [[server rest]|]; cbn;
      match goal with |- context [http E ?u] => destruct (http E u) as [result|e] end;
      cbn; try destruct (300 <=? statusCode result)%Z; cbn;
      (split; [|done]); eexists [_]; (split; [done|]);
      constructor; try constructor; by eexists.
Qed.

Lemma extractLayer_addsOnly (l : Layer) (w : World) :
  addsOnly isGrib2json w (snd (extractLayer E l w))
  /\ store (snd (extractLayer E l w)) = store w.
Proof.
  split.
  - destruct (extractLayer_trace E l w) as [Hq|Hq].
    + by exists [].
    + eexists [_]. split; [exact Hq|]. constructor; [|constructor].
      by eexists _, _.
  - apply extractLayer_frame.
Qed.

End MorePipeline.


Section CycleStages.

Context {StoreResult : Type} (E : Env StoreResult).

Lemma downloads_addsOnly (ps : list Product) (w : World) :
  addsOnly isHttpGet w (snd (when_map (download E) ps w))
  /\ store (snd (when_map (download E) ps w)) = store w.
Proof.
  apply (when_map_preserves (download E)
           (fun a b => addsOnly isHttpGet a b /\ store b = store a)).
  - intros w0. split; [apply addsOnly_refl|done].
  - intros a b c [Hab Sab] [Hbc Sbc]. split; [by eapply addsOnly_trans|congruence].
  - intros x w0. apply download_addsOnly.
Qed.

Lemma extractLayers_addsOnly (p : Product) (w : World) :
  addsOnly isGrib2json w (snd (extractLayers E p w))
  /\ store (snd (extractLayers E p w)) = store w.
Proof.
  unfold extractLayers.
  apply (when_map_preserves (extractLayer E)
           (fun a b => addsOnly isGrib2json a b /\ store b = store a)).
  - intros w0. split; [apply addsOnly_refl|done].
  - intros a b c [Hab Sab] [Hbc Sbc]. split; [by eapply addsOnly_trans|congruence].
  - intros x w0. apply extractLayer_addsOnly.
Qed.

Lemma extraction_addsOnly (ps : list Product) (w : World) :
  addsOnly isGrib2json w (snd (when_map (extractLayers E) ps w))
  /\ store (snd (when_map (extractLayers E) ps w)) = store w.
Proof.
  apply (when_map_preserves (extractLayers E)
           (fun a b => addsOnly isGrib2json a b /\ store b = store a)).
  - intros w0. split; [apply addsOnly_refl|done].
  - intros a b c [Hab Sab] [Hbc Sbc]. split; [by eapply addsOnly_trans|congruence].
  - intros x w0. apply extractLayers_addsOnly.
Qed.

(** X20: when a fetch of the cycle is rejected, the cycle is rejected with
    that error and goes no further: no decoder is run and the store is not
    asked anything, for any Product of the cycle. *)
Theorem cycle_ends_at_a_rejected_fetch (c : Cycle) (w w1 : World) (e : Error) :
  when_map (download E) (cycleProducts E c) (add_log (CycleStarted c) w)
  = (Rejected e, w1) ->
  processCycle E c w = (Rejected e, w1)
  /\ addsOnly isHttpGet w w1
  /\ store w1 = store w.
Proof.
  intros Hd.
  destruct (downloads_addsOnly (cycleProducts E c) (add_log (CycleStarted c) w))
    as [Hadd Hstore].
  rewrite Hd in Hadd, Hstore. cbn [snd] in Hadd, Hstore.
  split; [|split; [exact Hadd|exact Hstore]].
  unfold processCycle, then_ at 1 2. unfold log_info at 1. by rewrite Hd.
Qed.

(** X21: when an extraction of the cycle is rejected, as after a failure of
    the decoder on one Layer, the cycle is rejected with that error and
    nothing of the cycle is pushed: the store is not asked anything, not
    even for the Layers that were built. *)
Theorem cycle_ends_at_a_rejected_extraction (c : Cycle) (w w1 w2 : World)
    (downloads : list Product) (e : Error) :
  when_map (download E) (cycleProducts E c) (add_log (CycleStarted c) w)
  = (Fulfilled downloads, w1) ->
  when_map (extractLayers E) downloads w1 = (Rejected e, w2) ->
  processCycle E c w = (Rejected e, w2)
  /\ addsOnly (fun eff => isHttpGet eff \/ isGrib2json eff) w w2
  /\ store w2 = store w.
Proof.
  intros Hd Hx.
  destruct (downloads_addsOnly (cycleProducts E c) (add_log (CycleStarted c) w))
    as [Hadd Hstore].
  rewrite Hd in Hadd, Hstore. cbn [snd] in Hadd, Hstore.
  destruct (extraction_addsOnly downloads w1) as [Hadd2 Hstore2].
  rewrite Hx in Hadd2, Hstore2. cbn [snd] in Hadd2, Hstore2.
  split; [|split; [|rewrite Hstore2; exact Hstore]].
  - unfold processCycle, then_ at 1 2. unfold log_info at 1. rewrite Hd.
    unfold then_ at 1. by rewrite Hx.
  - apply (addsOnly_trans _ w w1 w2).
    + eapply addsOnly_weaken; [|exact Hadd]. auto.
    + eapply addsOnly_weaken; [|exact Hadd2]. auto.
Qed.

End CycleStages.

Section QuietCycle.

Context {StoreResult : Type} (E : Env StoreResult).

Lemma downloads_all_skip (ps : list Product) :
  forall w,
    Forall (fun p => is_Some (files w !! normalize (product_path E (GRIB_HOME E) p)))
      ps ->
    exists w1,
      when_map (download E) ps w = (Fulfilled ps, w1)
      /\ files w1 = files w /\ servers w1 = servers w
      /\ trace w1 = trace w /\ store w1 = store w.
Proof.
  induction ps as [|p rest IH]; intros w Hall.
  - by exists w.
  - apply Forall_cons in Hall as [Hp Hrest].
    cbn [when_map]. rewrite download_existing; [|done].
    destruct (IH (add_log (AlreadyExists (product_path E (GRIB_HOME E) p)) w) Hrest)
      as (w1 & -> & Hf & Hs & Ht & Hst).
    by exists w1.
Qed.

Lemma layers_all_skip (ls : list Layer) :
  forall w,
    Forall (upToDate E (files w)) ls ->
    exists w1,
      when_map (extractLayer E) ls w = (Fulfilled (map Some ls), w1)
      /\ files w1 = files w /\ servers w1 = servers w
      /\ trace w1 = trace w /\ store w1 = store w.
Proof.
  induction ls as [|l rest IH]; intros w Hall.
  - by exists w.
  - apply Forall_cons in Hall as [(Hp & r0 & rs & Hl & Hge) Hrest].
    cbn [when_map map]. rewrite (extractLayer_existing E l w r0 rs Hp Hl), Hge.
    destruct (IH (add_log (NewerLayerExists (layer_path E (LAYER_HOME E) l)) w) Hrest)
      as (w1 & -> & Hf & Hs & Ht & Hst).
    by exists w1.
Qed.

Lemma extraction_all_skip (ps : list Product) :
  forall w,
    Forall (fun p => Forall (upToDate E (files w))
                       (map (fun r => gfs_layer r p false)
                          [wi10; wi70; wi250; wi500; wi700; wi850; wi1000])) ps ->
    exists extracted w1,
      when_map (extractLayers E) ps w = (Fulfilled extracted, w1)
      /\ files w1 = files w /\ servers w1 = servers w
      /\ trace w1 = trace w /\ store w1 = store w.
Proof.
  induction ps as [|p rest IH]; intros w Hall.
  - by exists [], w.
  - apply Forall_cons in Hall as [Hp Hrest].
    cbn [when_map]. unfold extractLayers at 1. rewrite layers_enumerated.
    destruct (layers_all_skip _ w Hp) as (w0 & -> & Hf0 & Hs0 & Ht0 & Hst0).
    rewrite <- Hf0 in Hrest.
    destruct (IH w0 Hrest) as (extracted & w1 & -> & Hf & Hs & Ht & Hst).
    eexists _, w1. split; [reflexivity|]. repeat split; congruence.
Qed.

Lemma pushLayer_addsOnly (l : option Layer) (w : World) :
  addsOnly isStoreRequest w (snd (pushLayer E l w)).
Proof.
  destruct l as [l|]; [|apply addsOnly_refl].
  destruct (pushLayer_onlyPublishes E l w) as [(new & Hnew & Hin) _].
  exists new. split; [done|]. apply Forall_forall. intros e He.
  apply list_elem_of_In in He. destruct (Hin e He) as (l' & _ & [->| ->]);
    eexists; eauto.
Qed.

Lemma pushing_frame (extracted : list (list (option Layer))) (w : World) :
  files (snd (when_map (pushLayers E) extracted w)) = files w
  /\ servers (snd (when_map (pushLayers E) extracted w)) = servers w
  /\ addsOnly isStoreRequest w (snd (when_map (pushLayers E) extracted w)).
Proof.
  apply (when_map_preserves (pushLayers E)
    (fun a b => files b = files a /\ servers b = servers a
                /\ addsOnly isStoreRequest a b)).
  - intros w0. repeat split. apply addsOnly_refl.
  - intros a b c (F1 & S1 & A1) (F2 & S2 & A2).
    repeat split; try congruence. by eapply addsOnly_trans.
  - intros ls w0. unfold pushLayers.
    apply (when_map_preserves (pushLayer E)
      (fun a b => files b = files a /\ servers b = servers a
                  /\ addsOnly isStoreRequest a b)).
    + intros w1. repeat split. apply addsOnly_refl.
    + intros a b c (F1 & S1 & A1) (F2 & S2 & A2).
      repeat split; try congruence. by eapply addsOnly_trans.
    + intros l w1. destruct (pushLayer_frame E l w1) as (Hf & Hs & _).
      repeat split; try done. apply pushLayer_addsOnly.
Qed.

(** X22: a cycle whose product files are all on disk and whose Layers are
    all up to date costs no transfer and no run of the decoder: the cycle
    changes no file, leaves the pool alone and only talks to the store. *)
Theorem up_to_date_cycle_is_quiet (c : Cycle) (w : World) :
  (forall p r,
     In p (cycleProducts E c) ->
     In r [wi10; wi70; wi250; wi500; wi700; wi850; wi1000] ->
     upToDate E (files w) (gfs_layer r p false)) ->
  files (snd (processCycle E c w)) = files w
  /\ servers (snd (processCycle E c w)) = servers w
  /\ addsOnly isStoreRequest w (snd (processCycle E c w)).
Proof.
  intros Hup.
  set (w0 := add_log (CycleStarted c) w).
  assert (Hd : Forall (fun p => is_Some (files w0
                 !! normalize (product_path E (GRIB_HOME E) p))) (cycleProducts E c)).
  { apply Forall_forall. intros p Hp%list_elem_of_In.
    destruct (Hup p wi10 Hp) as [Hfile _]; [by left|exact Hfile]. }
  destruct (downloads_all_skip _ w0 Hd) as (w1 & Hw1 & Hf1 & Hs1 & Ht1 & Hst1).
  assert (Hx : Forall (fun p => Forall (upToDate E (files w1))
                 (map (fun r => gfs_layer r p false)
                    [wi10; wi70; wi250; wi500; wi700; wi850; wi1000]))
                 (cycleProducts E c)).
  { apply Forall_forall. intros p Hp%list_elem_of_In.
    apply Forall_forall. intros l Hl%list_elem_of_In.
    apply in_map_iff in Hl as (r & <- & Hr). rewrite Hf1. by apply Hup. }
  destruct (extraction_all_skip _ w1 Hx)
    as (extracted & w2 & Hw2 & Hf2 & Hs2 & Ht2 & Hst2).
  destruct (pushing_frame extracted w2) as (Hf3 & Hs3 & Ha3).
  assert (Hrun : snd (processCycle E c w)
                 = snd ((let* pushed := when_map (pushLayers E) extracted in
                         log_info BatchComplete) w2)).
  { unfold processCycle, then_ at 1 2. unfold log_info at 1. fold w0.
    rewrite Hw1. unfold then_ at 1. by rewrite Hw2. }
  rewrite Hrun. unfold then_, log_info.
  assert (Hf0 : files w0 = files w) by done.
  assert (Hs0 : servers w0 = servers w) by done.
  assert (Ht0 : trace w0 = trace w) by done.
  destruct Ha3 as (new & Hnew & Hall).
  destruct (when_map (pushLayers E) extracted w2) as [[pushed|e] w3];
    cbn [snd] in *; cbn [files servers trace add_log];
    (split; [congruence|]); (split; [congruence|]);
    exists new; (split; [|done]); cbn [trace add_log]; congruence.
Qed.

End QuietCycle.

Section MoreScheduler.

Context {StoreResult : Type} (E : Env StoreResult).

Lemma cycleBack_date (c : Cycle) (x : Z) (i : nat) :
  cycle_date c = Some x ->
  cycleBack E i c = {| cycle_date := Some (x - Z.of_nat i * period E)%Z |}.
Proof.
  intros Hx. induction i as [|i IH].
  - cbn. destruct c as [d]. cbn in Hx. subst d. f_equal. f_equal. lia.
  - unfold cycleBack in *. rewrite Nat.iter_succ, IH.
    unfold cycle_previous. cbn [cycle_date fmap option_fmap option_map].
    f_equal. f_equal. lia.
Qed.

(** X23: [processCycles] ends for every window, and with enough fuel the
    loop gives the same cycles whatever the fuel.  With an invalid date as
    one of the bounds no cycle is processed.  With valid bounds, whose
    cycles are at [x] and [y], none is processed when [x] is before [y], and
    otherwise the cycles at [x], [x - period], ... down to the last one at
    or after [y], which makes [(x - y) / period + 1] of them. *)
Theorem processed_cycles_in_closed_form (bounds : Bounds) :
  (0 < period E)%Z ->
  exists fuel cycles,
    (forall fuel', (fuel <= fuel')%nat ->
       processCycles_loop E id fuel' (gfs_cycle E (until bounds))
         (gfs_cycle E (from bounds)) = Some cycles
       /\ processCycles E fuel' bounds
          = Some (when_all (map (processCycle E) cycles)))
    /\ (from bounds = None \/ until bounds = None -> cycles = [])
    /\ (forall x y,
          cycle_date (gfs_cycle E (from bounds)) = Some x ->
          cycle_date (gfs_cycle E (until bounds)) = Some y ->
          cycles = map (fun i => {| cycle_date := Some (x - Z.of_nat i * period E)%Z |})
                     (seq 0 (if (x <? y)%Z then 0
                             else S (Z.to_nat ((x - y) / period E))))).
Proof.
  intros Hperiod.
  destruct (loop_total E id (gfs_cycle E (until bounds)) (gfs_cycle E (from bounds))
              Hperiod) as (fuel & cycles & Hloop).
  exists fuel, cycles. split; [|split].
  - intros fuel' Hle.
    assert (Hloop' : processCycles_loop E id fuel' (gfs_cycle E (until bounds))
                       (gfs_cycle E (from bounds)) = Some cycles)
      by (by apply (loop_more_fuel E id fuel)).
    split; [done|]. unfold processCycles. by rewrite loop_tasks, Hloop'.
  - intros Hinvalid. destruct fuel as [|fuel]; [done|].
    rewrite loop_unfold in Hloop.
    destruct Hinvalid as [Hi|Hi]; rewrite Hi in Hloop; cbn in Hloop.
    + by injection Hloop as <-.
    + destruct (snap E <$> from bounds); by injection Hloop as <-.
  - intros x y Hx Hy.
    destruct (loop_visits E _ _ _ _ Hloop) as (Hmap & Hall & Hend).
    set (n := length cycles) in *.
    rewrite (cycleBack_date _ x n Hx), Hy in Hend. cbn in Hend.
    apply Z.leb_gt in Hend.
    assert (Hlast : (0 < n)%nat -> (y <= x - Z.of_nat (n - 1) * period E)%Z).
    { intros Hn. rewrite Hmap in Hall. rewrite Forall_forall in Hall.
      specialize (Hall (cycleBack E (n - 1) (gfs_cycle E (from bounds)))).
      rewrite (cycleBack_date _ x (n - 1) Hx), Hy in Hall. cbn in Hall.
      apply Z.leb_le, Hall, list_elem_of_In, in_map_iff.
      exists (n - 1)%nat. split; [by rewrite (cycleBack_date _ x)|].
      apply in_seq. lia. }
    assert (Hn : n = if (x <? y)%Z then 0%nat else S (Z.to_nat ((x - y) / period E))).
    { destruct (x <? y)%Z eqn:Hxy.
      - apply Z.ltb_lt in Hxy. destruct n as [|n']; [done|].
        specialize (Hlast ltac:(lia)). nia.
      - apply Z.ltb_ge in Hxy.
        destruct n as [|n']; [nia|]. specialize (Hlast ltac:(lia)).
        replace (S n' - 1)%nat with n' in Hlast by lia.
        f_equal.
        pose proof (Z.mul_div_le (x - y) (period E) Hperiod) as Hlo.
        pose proof (Z.mul_succ_div_gt (x - y) (period E) Hperiod) as Hhi.
        assert (Hq : ((x - y) / period E = Z.of_nat n')%Z) by nia.
        rewrite Hq. lia. }
    rewrite <- Hn. rewrite Hmap at 1. apply map_ext. intros i.
    by apply cycleBack_date.
Qed.

End MoreScheduler.

Section MoreResolver.

Context {StoreResult : Type} (E : Env StoreResult).

Hypothesis previous_is_earlier :
  forall p t, product_date p = Some t ->
    exists t', product_date (product_previous E p) = Some t' /\ (t' < t)%Z.

Lemma walkToNow_result fuel now l l' :
  walkToNow E fuel now l = Some l' ->
  date_gt (product_date (product l')) (Some now) = false
  /\ recipe l' = recipe l /\ isCurrent l' = isCurrent l
  /\ forall t, product_date (product l) = Some t ->
               exists t', product_date (product l') = Some t' /\ (t' <= t)%Z.
Proof.
  revert l. induction fuel as [|fuel IH]; intros l; [done|]. cbn [walkToNow].
  destruct (date_gt (product_date (product l)) (Some now)) eqn:Hgt.
  - intros Hw. destruct (IH _ Hw) as (Hd & Hr & Hc & Ht).
    repeat split; try done. intros t Hdate.
    destruct (previous_is_earlier _ _ Hdate) as (t1 & H1 & Hlt).
    destruct (Ht t1 H1) as (t' & Ht' & Hle). exists t'. split; [done|lia].
  - intros [= <-]. repeat split; try done. intros t Ht. exists t. split; [done|lia].
Qed.

Lemma walkToDisk_result fuel limit l w l' :
  walkToDisk E fuel limit l w = Some (Some l') ->
  is_Some (files w !! normalize (layer_path E (LAYER_HOME E) l'))
  /\ recipe l' = recipe l /\ isCurrent l' = isCurrent l
  /\ (l' = l \/ date_lt (product_date (product l')) (Some limit) = false)
  /\ forall t, product_date (product l) = Some t ->
               exists t', product_date (product l') = Some t' /\ (t' <= t)%Z.
Proof.
  revert l. induction fuel as [|fuel IH]; intros l; [done|]. cbn [walkToDisk].
  unfold existsSync at 1. cbn [fst].
  destruct (bool_decide (is_Some (files w !! normalize (layer_path E (LAYER_HOME E) l))))
    eqn:Hex.
  - intros [= <-]. apply bool_decide_eq_true in Hex.
    repeat split; try done; [by left|]. intros t Ht. exists t. split; [done|lia].
  - destruct (date_lt (product_date (product (layer_previous E l))) (Some limit))
      eqn:Hold; [done|].
    intros Hw. destruct (IH _ Hw) as (Hf & Hr & Hc & Hage & Ht).
    repeat split; try done.
    + right. destruct Hage as [->|Hage]; done.
    + intros t Hdate.
      destruct (previous_is_earlier _ _ Hdate) as (t1 & H1 & Hlt).
      destruct (Ht t1 H1) as (t' & Ht' & Hle). exists t'. split; [done|lia].
Qed.

(** X24: the Layer that the search of [copyCurrent] comes back with is a
    dated Layer of the recipe wi1000 whose file is on disk and whose
    validity time is not after now; unless it is the very first candidate,
    it is not older than three days. *)
Theorem search_finds_a_layer_on_disk (fuel : nat) (now : Z) (w : World)
    (found : Layer) :
  findMostRecentLayer E fuel now w = Some (Some found) ->
  is_Some (files w !! normalize (layer_path E (LAYER_HOME E) found))
  /\ recipe found = wi1000 /\ isCurrent found = false
  /\ exists t,
       product_date (product found) = Some t
       /\ (t <= now)%Z
       /\ ((now - 3 * 24 * 60 * 60 * 1000 <= t)%Z
           \/ walkToNow E fuel now
                (gfs_layer wi1000
                   (gfs_product "1.0" (cycle_next E (gfs_cycle E (Some now))) 0)
                   false) = Some found).
Proof.
  unfold findMostRecentLayer.
  set (start := gfs_layer wi1000 _ false).
  destruct (walkToNow E fuel now start) as [nominal|] eqn:Hnow; [|done].
  cbn [mbind option_bind]. intros Hdisk.
  destruct (walkToNow_result _ _ _ _ Hnow) as (Hgt & Hr & Hc & Hdate).
  destruct (walkToDisk_result _ _ _ _ _ Hdisk) as (Hf & Hr' & Hc' & Hage & Hdate').
  destruct (Hdate (snap E now + period E + 0 * 3600000)%Z eq_refl)
    as (t1 & Ht1 & _).
  destruct (Hdate' t1 Ht1) as (t & Ht & Hle).
  split; [exact Hf|]. split; [by rewrite Hr', Hr|]. split; [by rewrite Hc', Hc|].
  exists t. split; [exact Ht|].
  assert (Hnom : (t1 <= now)%Z).
  { unfold date_gt, date_lt in Hgt. rewrite Ht1 in Hgt. by apply Z.ltb_ge in Hgt. }
  split; [lia|].
  destruct Hage as [->|Hage].
  - by right.
  - left. rewrite Ht in Hage. cbn in Hage. by apply Z.ltb_ge in Hage.
Qed.

Lemma walkToDisk_nothing fuel limit l w r :
  (forall l', files w !! normalize (layer_path E (LAYER_HOME E) l') = None) ->
  walkToDisk E fuel limit l w = Some r -> r = None.
Proof.
  intros Hnone Hw. destruct r as [l'|]; [|done].
  destruct (walkToDisk_result _ _ _ _ _ Hw) as ([f Hf] & _).
  by rewrite Hnone in Hf.
Qed.

(** X25: when no layer file is on disk the search ends by giving up:
    [copyCurrent] returns undefined after logging that nothing recent was
    found; it touches no file and asks the store nothing. *)
Theorem nothing_on_disk_gives_up (now : Z) (w : World) :
  (forall l, files w !! normalize (layer_path E (LAYER_HOME E) l) = None) ->
  exists fuel,
    copyCurrent E fuel now w = Some (Fulfilled None, add_log NoRecentLayers w).
Proof.
  intros Hnone.
  destruct (findMostRecentLayer_total E previous_is_earlier now w) as (fuel & r & Hr).
  exists fuel. unfold copyCurrent. rewrite Hr. cbn [mbind option_bind].
  unfold findMostRecentLayer in Hr.
  destruct (walkToNow E fuel now _) as [nominal|]; [|done].
  cbn [mbind option_bind] in Hr.
  by rewrite (walkToDisk_nothing _ _ _ _ _ Hnone Hr).
Qed.

End MoreResolver.

Section MoreLinking.

Context {StoreResult : Type} (E : Env StoreResult).

(** X26: linking a recipe of a Product to "current" makes the alias file a
    copy of the dated layer file, whatever the alias held before, and
    resolves with the alias; the dated file, every other file and the store
    are as before. *)
Theorem linkCurrent_copies_the_dated_layer (p : Product) (r : Recipe)
    (w : World) (content : File) :
  let src := layer_path E (LAYER_HOME E) (gfs_layer r p false) in
  let dest := layer_path E (LAYER_HOME E) (gfs_layer r p true) in
  files w !! normalize src = Some content ->
  normalize dest <> normalize src ->
  exists w',
    linkCurrent E p r w = (Fulfilled (Some (gfs_layer r p true)), w')
    /\ files w' = <[normalize dest := content]> (files w)
    /\ files w' !! normalize src = Some content
    /\ store w' = store w /\ trace w' = trace w.
Proof.
  intros src dest Hsrc Hne. unfold linkCurrent, pipeFile. run.
  fold src dest.
  destruct (bool_decide (is_Some (files w !! normalize dest))); cbn.
  - rewrite lookup_delete_ne; [|done]. rewrite Hsrc. eexists.
    split; [reflexivity|]. cbn. rewrite insert_delete_eq.
    repeat split. by rewrite lookup_insert_ne.
  - rewrite Hsrc. eexists. split; [reflexivity|]. cbn.
    repeat split. by rewrite lookup_insert_ne.
Qed.

End MoreLinking.

Section PoolUnderThrottle.

Import Fetching.

Context {StoreResult : Type} (E : Env StoreResult).

Lemma held_app (a b : list (Product * stage)) : held (a ++ b) = held a ++ held b.
Proof. unfold held. apply omap_app. Qed.

Lemma held_letIn (ps : list Product) : held (letIn ps) = [].
Proof. by induction ps. Qed.

Lemma held_length (cs : list (Product * stage)) : (length (held cs) <= length cs)%nat.
Proof.
  induction cs as [|[p st] cs IH]; [done|]. unfold held in *. cbn.
  destruct st; cbn; lia.
Qed.

Lemma balanced_initial (w : World) :
  servers w = initial_servers E -> balanced E (initial E w).
Proof.
  intros Hs. unfold balanced. cbn. rewrite Hs, app_nil_r.
  repeat split; try lia. done.
Qed.

Lemma leave_balanced (before after : list (Product * stage)) (c : Product * stage)
    (w : World) (s : state) :
  calls s = before ++ c :: after ->
  balanced E s ->
  servers w ++ held (before ++ after) ≡ₚ initial_servers E ->
  balanced E (leave before after w s).
Proof.
  intros Hc (Hcount & Hallowed & Hlen & _) Hpool.
  rewrite Hc, length_app in Hcount, Hlen. cbn in Hcount, Hlen.
  unfold balanced, leave, Guard.exit.
  destruct (Guard.waiting (condition s)) as [|d rest] eqn:Hw; cbn.
  - rewrite app_nil_r, length_app. cbn in Hcount.
    repeat split; [lia|done|lia|done].
  - rewrite !length_app. cbn. cbn in Hcount.
    repeat split; [lia|done|lia|].
    rewrite app_assoc, held_app. cbn. by rewrite app_nil_r.
Qed.

Lemma step_balanced (s s' : state) :
  (forall url, exists result, http E url = Fulfilled result) ->
  balanced E s -> step E s s' ->
  balanced E s'
  /\ (In NoServersAvailable (log (world s')) ->
      In NoServersAvailable (log (world s))).
Proof.
  intros Hhttp Hb Hstep. pose proof Hb as (Hcount & Hallowed & Hlen & Hpool).
  change (length (initial_servers E)) with 2%nat in Hallowed, Hlen.
  destruct Hstep as [p s|p before after s Hc|p server rp before after s Hc
                    |p server rp before after s Hc|p before after s Hc].
  - unfold call, Guard.enter.
    destruct (Guard.count (condition s) <? Guard.allowed (condition s))%Z eqn:Hlt;
      (split; [|done]); unfold balanced; cbn.
    + apply Z.ltb_lt in Hlt. rewrite length_app, held_app. cbn.
      rewrite app_nil_r. repeat split; [lia|done|lia|done].
    + rewrite app_nil_r, length_app. cbn. repeat split; [lia|done|lia|done].
  - unfold start, downloadStart.
    destruct (bool_decide _).
    + split; [|by intros [|]]. unfold balanced. cbn.
      rewrite Hc in Hcount, Hlen, Hpool. rewrite length_app in *. cbn in *.
      repeat split; try done. by rewrite held_app in *.
    + unfold nextServer.
      destruct (array_pop (servers (world s))) as [[server rest]|] eqn:Hpop.
      * split; [|by intros [|]]. unfold balanced. cbn.
        apply array_pop_push in Hpop.
        rewrite Hc in Hcount, Hlen, Hpool. rewrite length_app in *. cbn in *.
        repeat split; try done.
        rewrite held_app in *. cbn in *. rewrite <- Hpool, <- Hpop.
        rewrite <- app_assoc. f_equiv. cbn.
        by rewrite Permutation_middle.
      * exfalso. apply array_pop_None in Hpop. rewrite Hpop in Hpool.
        apply Permutation_length in Hpool. cbn in Hpool.
        rewrite Hc, held_app in Hpool. rewrite Hc, length_app in Hlen.
        cbn in Hpool, Hlen. rewrite length_app in Hpool.
        pose proof (held_length before). pose proof (held_length after).
        unfold initial_servers, held in *. cbn in *. lia.
  - split; [|done]. unfold balanced, request. cbn.
    rewrite Hc in Hcount, Hlen, Hpool. rewrite length_app in *. cbn in *.
    repeat split; try done. by rewrite held_app in *.
  - destruct (Hhttp rp) as [result Hres].
    assert (Hw : servers (respond E p server rp (world s))
                 = servers (world s) ++ [server]
                 /\ (In NoServersAvailable (log (respond E p server rp (world s))) ->
                     In NoServersAvailable (log (world s)))).
    { unfold respond, downloadDone. rewrite Hres. run.
      destruct (300 <=? statusCode result)%Z; cbn; (split; [done|]).
      - by intros [|].
      - by intros [|]. }
    destruct Hw as [Hservers Hlog]. split.
    + apply (leave_balanced _ _ _ _ _ Hc Hb). rewrite Hservers.
      rewrite Hc, held_app in Hpool. cbn in Hpool. rewrite held_app.
      rewrite <- Hpool, <- app_assoc. f_equiv. cbn.
      by rewrite Permutation_middle.
    + unfold leave. destruct (Guard.exit (condition s)). exact Hlog.
  - split.
    + apply (leave_balanced _ _ _ _ _ Hc Hb).
      rewrite Hc, held_app in Hpool. cbn in Hpool. by rewrite held_app.
    + unfold leave. by destruct (Guard.exit (condition s)).
Qed.

(** X27: as long as every transfer settles with a result, overlapping
    fetches never find the pool empty: at every moment each of the servers
    is either in the pool or held by one fetch in flight, at most as many
    fetches are in flight as there are servers, and the fallback of
    [nextServer] is never taken. *)
Theorem pool_never_runs_dry (w0 : World) (s : state) :
  servers w0 = initial_servers E ->
  (forall url, exists result, http E url = Fulfilled result) ->
  rtc (step E) (initial E w0) s ->
  servers (world s) ++ held (calls s) ≡ₚ initial_servers E
  /\ (length (calls s) <= length (initial_servers E))%nat
  /\ (In NoServersAvailable (log (world s)) -> In NoServersAvailable (log w0)).
Proof.
  intros Hs Hhttp Hreach.
  assert (Hinv : balanced E s
                 /\ (In NoServersAvailable (log (world s)) ->
                     In NoServersAvailable (log w0))).
  { revert s Hreach. apply rtc_ind_r.
    - split; [by apply balanced_initial|done].
    - intros s1 s2 _ Hstep [Hb Hlog].
      destruct (step_balanced s1 s2 Hhttp Hb Hstep) as [Hb2 Hlog2]. auto. }
  destruct Hinv as [(_ & _ & Hlen & Hpool) Hlog]. auto.
Qed.

End PoolUnderThrottle.

Section Waiting.



End Waiting.

(** * More runs on the sample environment *)

Section MoreRuns.

Import Sample Scenario.

Lemma release_after_next_restores_pool_witness :
  servers emptyWorld <> []
  /\ fst (nextServer fetchEnv emptyWorld) = Fulfilled "www.ftp.ncep.noaa.gov"
  /\ servers (snd (releaseServer "www.ftp.ncep.noaa.gov"
                     (snd (nextServer fetchEnv emptyWorld))))
     = ["nomads.ncep.noaa.gov"; "www.ftp.ncep.noaa.gov"].
Proof.
  split; [discriminate|]. split; [reflexivity|].
  destruct (release_after_next_restores_pool fetchEnv emptyWorld
              (snd (nextServer fetchEnv emptyWorld)) "www.ftp.ncep.noaa.gov")
    as (Hpool & _ & _); [discriminate|reflexivity|exact Hpool].
Defined.

Lemma next_on_empty_pool_falls_back_witness :
  servers noServers = []
  /\ fst (nextServer fetchEnv noServers) = Fulfilled "nomads.ncep.noaa.gov"
  /\ log (snd (nextServer fetchEnv noServers)) = [NoServersAvailable].
Proof.
  split; [reflexivity|].
  destruct (next_on_empty_pool_falls_back fetchEnv noServers eq_refl) as [-> _].
  by split.
Defined.

Lemma fetch_success_stores_the_file_witness :
  files emptyWorld !! normalize (product_path fetchEnv (GRIB_HOME fetchEnv) product00)
  = None
  /\ exists w',
       download fetchEnv product00 emptyWorld = (Fulfilled product00, w')
       /\ files w' !! gribPath00 = Some (Grib "GRIB")
       /\ servers w' = servers emptyWorld.
Proof.
  split; [vm_compute; reflexivity|].
  destruct (fetch_success_stores_the_file fetchEnv product00 emptyWorld
              "www.ftp.ncep.noaa.gov" ["nomads.ncep.noaa.gov"]
              {| statusCode := 200; received := 2048; duration := 1000;
                 streamed := "GRIB" |})
    as (w' & Hd & Hf & Hs & _);
    [vm_compute; reflexivity|reflexivity|reflexivity|cbn; lia|].
  exists w'. split; [exact Hd|]. split; [|exact Hs].
  rewrite Hf. vm_compute. reflexivity.
Defined.

Lemma fetch_keeps_existing_files_witness :
  files staleOnly !! layerPath00
  = Some (Json [record_of "2013-11-25T18:00:00.000Z" 6])
  /\ files (snd (download fetchEnv product00 staleOnly)) !! layerPath00
     = Some (Json [record_of "2013-11-25T18:00:00.000Z" 6])
  /\ files (snd (download fetchEnv product00 staleOnly)) !! gribPath00
     = Some (Grib "GRIB").
Proof.
  assert (Hf : files staleOnly !! layerPath00
               = Some (Json [record_of "2013-11-25T18:00:00.000Z" 6]))
    by (vm_compute; reflexivity).
  split; [exact Hf|].
  destruct (fetch_keeps_existing_files fetchEnv product00 staleOnly _ _ Hf)
    as [Hkept _].
  split; [exact Hkept|vm_compute; reflexivity].
Defined.

Lemma fetch_rejected_transfer_keeps_the_server_witness :
  array_pop (servers emptyWorld)
  = Some ("www.ftp.ncep.noaa.gov", ["nomads.ncep.noaa.gov"])
  /\ servers (snd (download unreachableEnv product00 emptyWorld))
     = ["nomads.ncep.noaa.gov"].
Proof.
  split; [reflexivity|].
  destruct (fetch_rejected_transfer_keeps_the_server unreachableEnv product00
              emptyWorld "www.ftp.ncep.noaa.gov" ["nomads.ncep.noaa.gov"]
              (TransportError "ECONNRESET"))
    as (Hs & _ & _); [vm_compute; reflexivity|reflexivity|reflexivity|exact Hs].
Defined.

Lemma processLayer_attaches_the_date_witness :
  product_date (product layer00) = Some t_1126_00
  /\ exists data,
       processLayer fetchEnv layer00
         [record_of "2013-11-26T00:00:00.000Z" 0; record_of "2013-11-26T00:00:00.000Z" 0]
         emptyWorld
       = (Fulfilled (Some data), emptyWorld)
       /\ length data = 2%nat
       /\ Forall (fun record => meta record = Some "2013-11-26T00:00:00.000Z") data.
Proof.
  split; [reflexivity|].
  destruct (processLayer_attaches_the_date fetchEnv layer00
              (record_of "2013-11-26T00:00:00.000Z" 0)
              [record_of "2013-11-26T00:00:00.000Z" 0] emptyWorld)
    as (_ & _ & Hdata).
  destruct (Hdata t_1126_00 eq_refl) as (data & Hp & Hlen & _ & Hmeta).
  exists data. by repeat split.
Defined.

Lemma extract_without_product_is_null_witness :
  files staleOnly !! normalize (product_path fetchEnv (GRIB_HOME fetchEnv)
                                  (product layer00)) = None
  /\ exists w',
       extractLayer fetchEnv layer00 staleOnly = (Fulfilled None, w')
       /\ trace w' = trace staleOnly /\ files w' = files staleOnly.
Proof.
  assert (Hno : files staleOnly !! normalize
            (product_path fetchEnv (GRIB_HOME fetchEnv) (product layer00)) = None)
    by (vm_compute; reflexivity).
  split; [exact Hno|].
  destruct (extract_without_product_is_null fetchEnv layer00 staleOnly Hno)
    as (w' & He & Ht & Hf & _).
  by exists w'.
Defined.

Lemma extract_decoder_failure_is_rejected_witness :
  decoder brokenEnv (filter (recipe layer00))
    (files fetched !! normalize (product_path brokenEnv (GRIB_HOME brokenEnv)
                                   (product layer00)))
  = (1%Z, [])
  /\ files (snd (extractLayer brokenEnv layer00 fetched)) = files fetched
  /\ fst (extractLayer brokenEnv layer00 fetched) = Rejected (ReturnCode 1).
Proof.
  split; [reflexivity|].
  destruct (extract_decoder_failure_is_rejected brokenEnv layer00 fetched 1 []
              eq_refl ltac:(discriminate)) as [Hfiles Hres].
  split; [exact Hfiles|]. apply Hres. vm_compute. reflexivity.
Defined.




Lemma extract_touches_only_its_layer_file_witness :
  gribPath00 <> normalize (layer_path fetchEnv (LAYER_HOME fetchEnv) layer00)
  /\ files fetched !! gribPath00 = Some (Grib "GRIB")
  /\ files (snd (extractLayer fetchEnv layer00 fetched)) !! gribPath00
     = Some (Grib "GRIB").
Proof.
  assert (Hne : gribPath00
                <> normalize (layer_path fetchEnv (LAYER_HOME fetchEnv) layer00))
    by (vm_compute; discriminate).
  assert (Hf : files fetched !! gribPath00 = Some (Grib "GRIB"))
    by (vm_compute; reflexivity).
  split; [exact Hne|]. split; [exact Hf|].
  by destruct (extract_touches_only_its_layer_file fetchEnv layer00 fetched _ _ Hne Hf).
Defined.

Lemma extractLayers_runs_each_recipe_at_most_once_witness :
  exists new,
    trace (snd (extractLayers fetchEnv product00 fetched)) = new ++ trace fetched
    /\ (length new <= 7)%nat.
Proof.
  destruct (extractLayers_runs_each_recipe_at_most_once fetchEnv product00 fetched)
    as (new & Hnew & Hsub & _).
  exists new. split; [exact Hnew|].
  apply sublist_length in Hsub. exact Hsub.
Defined.

Lemma extractLayers_without_product_is_all_null_witness :
  files emptyWorld !! normalize (product_path fetchEnv (GRIB_HOME fetchEnv) product00)
  = None
  /\ fst (extractLayers fetchEnv product00 emptyWorld) = Fulfilled (replicate 7 None)
  /\ trace (snd (extractLayers fetchEnv product00 emptyWorld)) = [].
Proof.
  assert (Hno : files emptyWorld
            !! normalize (product_path fetchEnv (GRIB_HOME fetchEnv) product00) = None)
    by (vm_compute; reflexivity).
  split; [exact Hno|].
  destruct (extractLayers_without_product_is_all_null fetchEnv product00 emptyWorld Hno)
    as (Hres & Ht & _).
  by split.
Defined.

End MoreRuns.

Section MoreRuns2.

Import Sample Scenario.

Lemma push_stores_the_layer_file_witness :
  files freshLayer !! normalize (layer_path fetchEnv (LAYER_HOME fetchEnv) layer00)
  = Some (Json [record_of "2013-11-26T00:00:00.000Z" 0])
  /\ exists w',
       pushLayer fetchEnv (Some layer00) freshLayer = (Fulfilled JsTrue, w')
       /\ store w' !! ("earth", key00)
          = Some {| obj_body := Json [record_of "2013-11-26T00:00:00.000Z" 0];
                    obj_metadata := {[ "reference-time" := "2013-11-26T00:00:00.000Z" ]};
                    obj_cacheControl := "public, max-age=31536000" |}.
Proof.
  assert (Hf : files freshLayer
                 !! normalize (layer_path fetchEnv (LAYER_HOME fetchEnv) layer00)
               = Some (Json [record_of "2013-11-26T00:00:00.000Z" 0]))
    by (vm_compute; reflexivity).
  split; [exact Hf|].
  destruct (push_stores_the_layer_file fetchEnv layer00 freshLayer t_1126_00 _
              ("etag-" +:+ key00) Hf eq_refl)
    as (w' & Hp & Hs & _); [vm_compute; reflexivity|reflexivity|].
  exists w'. split; [exact Hp|exact Hs].
Defined.

Lemma push_again_after_upload_witness :
  Date_parse fetchEnv (toISOString fetchEnv t_1126_00) = Some t_1126_00
  /\ isCurrent layer00 = false
  /\ trace (snd (pushLayer fetchEnv (Some layer00)
                   (snd (pushLayer fetchEnv (Some layer00) freshLayer))))
     = [S3Head key00; S3Put key00; S3Head key00].
Proof.
  split; [reflexivity|]. split; [reflexivity|].
  destruct (push_again_after_upload fetchEnv layer00 freshLayer t_1126_00
              (Json [record_of "2013-11-26T00:00:00.000Z" 0]) ("etag-" +:+ key00))
    as [Hskip _];
    [vm_compute; reflexivity|reflexivity|vm_compute; reflexivity|reflexivity
    |reflexivity|vm_compute; discriminate|].
  destruct (Hskip eq_refl) as [Ht _]. rewrite Ht. vm_compute. reflexivity.
Defined.

Lemma push_store_failure_is_rejected_witness :
  s3_put downEnv (layer_path downEnv (S3_LAYER_HOME downEnv) layer00)
  = Rejected (StoreError "ServiceUnavailable")
  /\ exists w',
       pushLayer downEnv (Some layer00) freshLayer
       = (Rejected (StoreError "ServiceUnavailable"), w')
       /\ store w' = store freshLayer.
Proof.
  split; [reflexivity|].
  destruct (push_store_failure_is_rejected downEnv layer00 freshLayer t_1126_00
              (StoreError "ServiceUnavailable"))
    as (w' & Hp & Hs & _);
    [vm_compute; eauto|reflexivity|vm_compute; reflexivity|reflexivity|].
  exists w'. by split.
Defined.

Lemma pushLayers_leaves_local_state_witness :
  files (snd (pushLayers fetchEnv [Some layer00; None] freshLayer)) = files freshLayer
  /\ fst (pushLayers fetchEnv [Some layer00; None] freshLayer)
     = Fulfilled [JsTrue; JsNull].
Proof.
  destruct (pushLayers_leaves_local_state fetchEnv [Some layer00; None] freshLayer)
    as (Hf & _ & _).
  split; [exact Hf|vm_compute; reflexivity].
Defined.

Lemma cycle_ends_at_a_rejected_fetch_witness :
  fst (when_map (download unreachableEnv) (cycleProducts unreachableEnv cycle00)
         (add_log (CycleStarted cycle00) emptyWorld))
  = Rejected (TransportError "ECONNRESET")
  /\ fst (processCycle unreachableEnv cycle00 emptyWorld)
     = Rejected (TransportError "ECONNRESET")
  /\ addsOnly isHttpGet emptyWorld (snd (processCycle unreachableEnv cycle00 emptyWorld)).
Proof.
  split; [vm_compute; reflexivity|].
  destruct (cycle_ends_at_a_rejected_fetch unreachableEnv cycle00 emptyWorld
              (snd (when_map (download unreachableEnv)
                      (cycleProducts unreachableEnv cycle00)
                      (add_log (CycleStarted cycle00) emptyWorld)))
              (TransportError "ECONNRESET"))
    as (Hp & Ha & _); [vm_compute; reflexivity|].
  rewrite Hp. by split.
Defined.

Lemma cycle_ends_at_a_rejected_extraction_witness :
  when_map (download brokenEnv) (cycleProducts brokenEnv cycle00)
    (add_log (CycleStarted cycle00) emptyWorld)
  = (Fulfilled [product00; product03], afterFetch)
  /\ when_map (extractLayers brokenEnv) [product00; product03] afterFetch
     = (Rejected (ReturnCode 1), afterDecoder)
  /\ processCycle brokenEnv cycle00 emptyWorld = (Rejected (ReturnCode 1), afterDecoder)
  /\ addsOnly (fun eff => isHttpGet eff \/ isGrib2json eff) emptyWorld afterDecoder
  /\ store afterDecoder = store emptyWorld.
Proof.
  assert (Hd : when_map (download brokenEnv) (cycleProducts brokenEnv cycle00)
                 (add_log (CycleStarted cycle00) emptyWorld)
               = (Fulfilled [product00; product03], afterFetch))
    by (vm_compute; reflexivity).
  assert (Hx : when_map (extractLayers brokenEnv) [product00; product03] afterFetch
               = (Rejected (ReturnCode 1), afterDecoder))
    by (vm_compute; reflexivity).
  split; [exact Hd|]. split; [exact Hx|].
  exact (cycle_ends_at_a_rejected_extraction brokenEnv cycle00 emptyWorld
           afterFetch afterDecoder [product00; product03] (ReturnCode 1) Hd Hx).
Defined.

Lemma up_to_date_cycle_is_quiet_witness :
  (forall p r,
     In p (cycleProducts fetchEnv cycle00) ->
     In r [wi10; wi70; wi250; wi500; wi700; wi850; wi1000] ->
     upToDate fetchEnv (files settled) (gfs_layer r p false))
  /\ files (snd (processCycle fetchEnv cycle00 settled)) = files settled
  /\ addsOnly isStoreRequest settled (snd (processCycle fetchEnv cycle00 settled)).
Proof.
  assert (Hup : forall p r,
     In p (cycleProducts fetchEnv cycle00) ->
     In r [wi10; wi70; wi250; wi500; wi700; wi850; wi1000] ->
     upToDate fetchEnv (files settled) (gfs_layer r p false)).
  { intros p r Hp Hr. cbn in Hp, Hr.
    destruct Hp as [<-|[<-|[]]];
      destruct Hr as [<-|[<-|[<-|[<-|[<-|[<-|[<-|[]]]]]]]];
      (split; [vm_compute; eauto|]);
      eexists _, _; (split; [vm_compute; reflexivity|reflexivity]). }
  split; [exact Hup|].
  destruct (up_to_date_cycle_is_quiet fetchEnv cycle00 settled Hup) as (Hf & _ & Ha).
  by split.
Defined.

Lemma processed_cycles_in_closed_form_witness :
  (0 < period fetchEnv)%Z
  /\ exists fuel, forall fuel', (fuel <= fuel')%nat ->
       processCycles_loop fetchEnv id fuel' (gfs_cycle fetchEnv (until catchUp))
         (gfs_cycle fetchEnv (from catchUp))
       = Some [{| cycle_date := Some t_1126_00 |}; {| cycle_date := Some t_1125_18 |};
               {| cycle_date := Some t_1125_12 |}].
Proof.
  assert (Hperiod : (0 < period fetchEnv)%Z) by (vm_compute; reflexivity).
  split; [exact Hperiod|].
  destruct (processed_cycles_in_closed_form fetchEnv catchUp Hperiod)
    as (fuel & cycles & Hrun & _ & Hform).
  exists fuel. intros fuel' Hle. destruct (Hrun fuel' Hle) as [Hloop _].
  rewrite Hloop, (Hform t_1126_00 t_1125_12 eq_refl eq_refl).
  vm_compute. reflexivity.
Defined.

Lemma sample_previous_is_earlier (p : Product) (t : Z) :
  product_date p = Some t ->
  exists t', product_date (product_previous fetchEnv p) = Some t' /\ (t' < t)%Z.
Proof.
  destruct p as [ty [[d|]] fh]; [|done]. unfold product_date. cbn.
  intros [= <-]. unfold previous. cbn.
  destruct (fh =? 0)%Z eqn:Hfh; cbn; eexists; (split; [reflexivity|]).
  - apply Z.eqb_eq in Hfh. unfold hour. lia.
  - lia.
Qed.

Lemma search_finds_a_layer_on_disk_witness :
  findMostRecentLayer fetchEnv 10 now0 resolverWorld = Some (Some foundLayer)
  /\ is_Some (files resolverWorld
                !! normalize (layer_path fetchEnv (LAYER_HOME fetchEnv) foundLayer))
  /\ exists t, product_date (product foundLayer) = Some t /\ (t <= now0)%Z.
Proof.
  assert (Hfound : findMostRecentLayer fetchEnv 10 now0 resolverWorld
                   = Some (Some foundLayer)) by (vm_compute; reflexivity).
  split; [exact Hfound|].
  destruct (search_finds_a_layer_on_disk fetchEnv sample_previous_is_earlier
              10 now0 resolverWorld foundLayer Hfound)
    as (Hf & _ & _ & t & Ht & Hle & _).
  split; [exact Hf|]. exists t. by split.
Defined.

Lemma nothing_on_disk_gives_up_witness :
  (forall l, files emptyWorld
               !! normalize (layer_path fetchEnv (LAYER_HOME fetchEnv) l) = None)
  /\ exists fuel,
       copyCurrent fetchEnv fuel now0 emptyWorld
       = Some (Fulfilled None, add_log NoRecentLayers emptyWorld).
Proof.
  assert (Hnone : forall l, files emptyWorld
               !! normalize (layer_path fetchEnv (LAYER_HOME fetchEnv) l) = None)
    by (intros l; apply lookup_empty).
  split; [exact Hnone|].
  exact (nothing_on_disk_gives_up fetchEnv sample_previous_is_earlier now0
           emptyWorld Hnone).
Defined.

Lemma linkCurrent_copies_the_dated_layer_witness :
  files resolverWorld
    !! normalize (layer_path fetchEnv (LAYER_HOME fetchEnv)
                    (gfs_layer wi1000 headerProduct false))
  = Some (Json [record_of "2013-11-25T12:00:00.000Z" 9])
  /\ exists w',
       linkCurrent fetchEnv headerProduct wi1000 resolverWorld
       = (Fulfilled (Some (gfs_layer wi1000 headerProduct true)), w')
       /\ files w' !! "layers/current/current-wind-isobaric-1000hPa.json"
          = Some (Json [record_of "2013-11-25T12:00:00.000Z" 9]).
Proof.
  assert (Hsrc : files resolverWorld
    !! normalize (layer_path fetchEnv (LAYER_HOME fetchEnv)
                    (gfs_layer wi1000 headerProduct false))
    = Some (Json [record_of "2013-11-25T12:00:00.000Z" 9]))
    by (vm_compute; reflexivity).
  split; [exact Hsrc|].
  destruct (linkCurrent_copies_the_dated_layer fetchEnv headerProduct wi1000
              resolverWorld _ Hsrc) as (w' & Hl & Hf & _);
    [vm_compute; discriminate|].
  exists w'. split; [exact Hl|]. rewrite Hf. vm_compute. reflexivity.
Defined.

Lemma pool_never_runs_dry_witness :
  servers emptyWorld = initial_servers fetchEnv
  /\ rtc (Fetching.step fetchEnv) (Fetching.initial fetchEnv emptyWorld) oneFetch
  /\ servers (Fetching.world oneFetch) = ["nomads.ncep.noaa.gov"]
  /\ Fetching.held (Fetching.calls oneFetch) = ["www.ftp.ncep.noaa.gov"]
  /\ servers (Fetching.world oneFetch) ++ Fetching.held (Fetching.calls oneFetch)
     ≡ₚ initial_servers fetchEnv.
Proof.
  assert (Hreach : rtc (Fetching.step fetchEnv)
                     (Fetching.initial fetchEnv emptyWorld) oneFetch).
  { eapply rtc_l; [apply (Fetching.step_call fetchEnv product00)|].
    eapply rtc_l; [apply (Fetching.step_start fetchEnv product00 [] [])|];
      [reflexivity|]. apply rtc_refl. }
  split; [reflexivity|]. split; [exact Hreach|].
  split; [vm_compute; reflexivity|]. split; [vm_compute; reflexivity|].
  destruct (pool_never_runs_dry fetchEnv emptyWorld oneFetch eq_refl)
    as (Hpool & _ & _); [by eexists|exact Hreach|exact Hpool].
Defined.


End MoreRuns2.
